(** * Voice assistant: intent dispatcher, command store and reminder scheduler

    A shallow embedding of [_voice_assistant.py]: the dispatcher
    [process_command], the start-up load of the custom commands, the save
    routine [save_custom_commands], [listen_vosk] and [set_reminder].

    Text is modelled by Stdlib strings read as ASCII text; the character
    classes below are Python's [str.isspace], [str.isdigit] and [str.lower]
    on code points below 128.  The recogniser, the keyboard, the clock, the
    speech engine and the network services are the environment: their
    answers are read from the world, their calls are recorded in it. *)

From Stdlib Require Import ZArith Ascii String List Bool Lia.
From stdpp Require Import base option strings pretty gmap.

Open Scope string_scope.
Open Scope Z_scope.

(** ** Configuration constants (lines 28-43) *)

Definition OPENWEATHER_API_KEY : string := "YOUR_OPENWEATHER_API_KEY_HERE".
Definition EMAIL_ADDRESS : string := "YOUR_EMAIL@gmail.com".
Definition EMAIL_PASSWORD : string := "YOUR_APP_PASSWORD_HERE".
Definition DEFAULT_CITY : string := "Chennai".

(** ** Python string primitives *)

Module Py.

(** [str.isspace] on one ASCII character: tab, line feed, vertical tab,
    form feed, carriage return, the four separators 28-31 and space. *)
Definition isspace (c : ascii) : bool :=
  let n := N_of_ascii c in
  ((9 <=? n) && (n <=? 13) || (28 <=? n) && (n <=? 32))%N.

(** [str.isdigit] on one ASCII character. *)
Definition isdigit (c : ascii) : bool :=
  let n := N_of_ascii c in ((48 <=? n) && (n <=? 57))%N.

Definition digit_value (c : ascii) : Z := Z.of_N (N_of_ascii c) - 48.

Definition lower_char (c : ascii) : ascii :=
  let n := N_of_ascii c in
  if ((65 <=? n) && (n <=? 90))%N then ascii_of_N (n + 32) else c.

(** [s.lower()] *)
Fixpoint lower (s : string) : string :=
  match s with
  | EmptyString => EmptyString
  | String c s' => String (lower_char c) (lower s')
  end.

(** Truth value of a string: [if s:] holds for every non-empty string. *)
Definition truthy (s : string) : bool :=
  match s with EmptyString => false | String _ _ => true end.

(** [s.lstrip()] and [s.rstrip()] *)
Fixpoint lstrip (s : string) : string :=
  match s with
  | EmptyString => EmptyString
  | String c s' => if isspace c then lstrip s' else s
  end.

Fixpoint rstrip (s : string) : string :=
  match s with
  | EmptyString => EmptyString
  | String c s' =>
      match rstrip s' with
      | EmptyString => if isspace c then EmptyString else String c EmptyString
      | r => String c r
      end
  end.

(** [s.strip()] *)
Definition strip (s : string) : string := lstrip (rstrip s).

(** [s.startswith(p)] *)
Fixpoint startswith (s p : string) : bool :=
  match p, s with
  | EmptyString, _ => true
  | String _ _, EmptyString => false
  | String a p', String b s' => Ascii.eqb a b && startswith s' p'
  end.

(** [s[n:]] *)
Fixpoint drop (n : nat) (s : string) : string :=
  match n, s with
  | O, _ => s
  | S _, EmptyString => EmptyString
  | S n', String _ s' => drop n' s'
  end.

(** [sub in s] on strings: [sub] occurs in [s] as a contiguous run. *)
Fixpoint contains (sub s : string) : bool :=
  startswith s sub ||
  match s with
  | EmptyString => false
  | String _ s' => contains sub s'
  end.

(** [s.split(sep, 1)] for a non-empty separator: the text before and the
    text after the first occurrence of [sep], or [s] alone. *)
Fixpoint split_once (sep s : string) : list string :=
  if startswith s sep then [EmptyString; drop (String.length sep) s]
  else match s with
       | EmptyString => [EmptyString]
       | String c s' =>
           match split_once sep s' with
           | [before; after] => [String c before; after]
           | _ => [s]
           end
       end.

(** [s.replace(old, new, 1)] for a non-empty [old]. *)
Fixpoint replace_once (old new s : string) : string :=
  if startswith s old then new ++ drop (String.length old) s
  else match s with
       | EmptyString => EmptyString
       | String c s' => String c (replace_once old new s')
       end.

(** [''.join(ch for ch in s if ch.isdigit())] *)
Fixpoint keep_digits (s : string) : string :=
  match s with
  | EmptyString => EmptyString
  | String c s' => if isdigit c then String c (keep_digits s') else keep_digits s'
  end.

(** The digit run read by [int]: decimal digits, a single underscore
    allowed between two digits. *)
Fixpoint int_digits (acc : Z) (after_digit : bool) (s : string) : option Z :=
  match s with
  | EmptyString => if after_digit then Some acc else None
  | String c s' =>
      if isdigit c then int_digits (10 * acc + digit_value c) true s'
      else if Ascii.eqb c "_" && after_digit then int_digits acc false s'
      else None
  end.

(** [int(s)] on a string, base ten: surrounding white space and one sign
    are accepted; [None] stands for [ValueError].  The interpreter's
    configurable limit on the number of digits is left out. *)
Definition parse_int (s : string) : option Z :=
  match strip s with
  | String "-" s' => Z.opp <$> int_digits 0 false s'
  | String "+" s' => int_digits 0 false s'
  | s' => int_digits 0 false s'
  end.

End Py.

(** ** The world the assistant runs in *)

(** What one call of [listen_vosk] receives: the texts of the successive
    final recognition results (the loop stops at the first that is non-empty
    once trimmed and lowered; the list ends where the stream times out or
    fails), and the line typed at the fallback prompt. *)
Record listen_input := {
  recognised : list string;
  typed_fallback : string
}.

(** The commands file, [CUSTOM_COMMANDS_FILE]: text that [json.load] rejects,
    or a document holding a mapping from trigger to response.  [json.dump]
    followed by [json.load] is taken at the level of the document. *)
Inductive file_content :=
| Unparsable
| Document (mapping : gmap string string).

(** A started reminder thread: the time its worker sleeps, in seconds, and
    the sentence it speaks afterwards. *)
Record reminder := {
  delay_seconds : Z;
  announcement : string
}.

Inductive event :=
| Spoke (text : string)
| Printed (text : string)
| WeatherRequest (city : string)
| MailRequest (to_address subject message : string)
| WikipediaRequest (query : string).

Record World := {
  custom_commands : gmap string string;
  commands_file : option file_content;
  file_writable : bool;
  microphone : nat -> listen_input;
  heard : nat;
  keyboard : nat -> string;
  typed : nat;
  clock_time : string;
  clock_date : string;
  timers : list reminder;
  transcript : list event
}.

Inductive exn :=
| SystemExit (code : Z)
| ValueError
| IndexError.

Inductive result (A : Type) :=
| Ok (value : A)
| Raise (e : exn).
Arguments Ok {A} value.
Arguments Raise {A} e.

(** ** A state and exception monad over the world *)

Definition M (A : Type) : Type := World -> result A * World.

#[global] Instance M_ret : MRet M := fun A a w => (Ok a, w).
#[global] Instance M_bind : MBind M := fun A B k m w =>
  match m w with
  | (Ok a, w') => k a w'
  | (Raise e, w') => (Raise e, w')
  end.

Definition raise {A} (e : exn) : M A := fun w => (Raise e, w).

(** [try: body / except: handler] with a bare [except]. *)
Definition try_except {A} (body handler : M A) : M A := fun w =>
  match body w with
  | (Ok a, w') => (Ok a, w')
  | (Raise _, w') => handler w'
  end.

Definition exec {A} (m : M A) (w : World) : World := snd (m w).
Definition outcome {A} (m : M A) (w : World) : result A := fst (m w).

(** ** World updates *)

Definition record_event (e : event) (w : World) : World :=
  {| custom_commands := custom_commands w; commands_file := commands_file w;
     file_writable := file_writable w;
     microphone := microphone w; heard := heard w;
     keyboard := keyboard w; typed := typed w;
     clock_time := clock_time w; clock_date := clock_date w;
     timers := timers w; transcript := transcript w ++ [e] |}.

Definition advance_microphone (w : World) : World :=
  {| custom_commands := custom_commands w; commands_file := commands_file w;
     file_writable := file_writable w;
     microphone := microphone w; heard := S (heard w);
     keyboard := keyboard w; typed := typed w;
     clock_time := clock_time w; clock_date := clock_date w;
     timers := timers w; transcript := transcript w |}.

Definition advance_keyboard (w : World) : World :=
  {| custom_commands := custom_commands w; commands_file := commands_file w;
     file_writable := file_writable w;
     microphone := microphone w; heard := heard w;
     keyboard := keyboard w; typed := S (typed w);
     clock_time := clock_time w; clock_date := clock_date w;
     timers := timers w; transcript := transcript w |}.

Definition start_thread (r : reminder) (w : World) : World :=
  {| custom_commands := custom_commands w; commands_file := commands_file w;
     file_writable := file_writable w;
     microphone := microphone w; heard := heard w;
     keyboard := keyboard w; typed := typed w;
     clock_time := clock_time w; clock_date := clock_date w;
     timers := timers w ++ [r]; transcript := transcript w |}.

Definition set_custom_commands (m : gmap string string) (w : World) : World :=
  {| custom_commands := m; commands_file := commands_file w;
     file_writable := file_writable w;
     microphone := microphone w; heard := heard w;
     keyboard := keyboard w; typed := typed w;
     clock_time := clock_time w; clock_date := clock_date w;
     timers := timers w; transcript := transcript w |}.

Definition write_file (c : file_content) (w : World) : World :=
  {| custom_commands := custom_commands w; commands_file := Some c;
     file_writable := file_writable w;
     microphone := microphone w; heard := heard w;
     keyboard := keyboard w; typed := typed w;
     clock_time := clock_time w; clock_date := clock_date w;
     timers := timers w; transcript := transcript w |}.

(** ** Primitive actions *)

(** [speak(text)], lines 46-52: the text is printed and spoken. *)
Definition speak (text : string) : M unit :=
  fun w => (Ok tt, record_event (Spoke text) w).

Definition print (text : string) : M unit :=
  fun w => (Ok tt, record_event (Printed text) w).

(** [input(prompt)]: the next line of the keyboard. *)
Definition input : M string :=
  fun w => (Ok (keyboard w (typed w)), advance_keyboard w).

Definition sys_exit {A} (code : Z) : M A := raise (SystemExit code).

(** [int(s)] on a string. *)
Definition int (s : string) : M Z :=
  match Py.parse_int s with
  | Some z => mret z
  | None => raise ValueError
  end.

(** ** The command store *)

(** Lines 55-62, run once when the module is loaded: the mapping read from
    the commands file; empty when the file is absent or unparsable. *)
Definition load_custom_commands (file : option file_content) : gmap string string :=
  match file with
  | Some (Document m) => m
  | Some Unparsable => ∅
  | None => ∅
  end.

(** [save_custom_commands()], lines 64-69: a failed write is printed and
    otherwise ignored; the mapping in memory stays as it is. *)
Definition save_custom_commands : M unit := fun w =>
  if file_writable w
  then (Ok tt, write_file (Document (custom_commands w)) w)
  else print "Failed to save custom commands:" w.

(** ** Listening, lines 84-109 *)

Definition normalise (s : string) : string := Py.lower (Py.strip s).

(** The first recognition result whose text is non-empty once normalised. *)
Fixpoint first_heard (results : list string) : option string :=
  match results with
  | [] => None
  | res :: rest =>
      let text := normalise res in
      if Py.truthy text then Some text else first_heard rest
  end.

(** What a call of [listen_vosk] returns on a given input. *)
Definition listen_result (i : listen_input) : string :=
  match first_heard (recognised i) with
  | Some text => text
  | None => normalise (typed_fallback i)
  end.

Definition listen_vosk : M string :=
  speak "Listening now." ;;
  i ← (fun w => (Ok (microphone w (heard w)), advance_microphone w));
  match first_heard (recognised i) with
  | Some text => print ("You said: " ++ text) ;; mret text
  | None =>
      speak "I couldn't hear clearly. Please type your command:" ;;
      mret (normalise (typed_fallback i))
  end.

(** ** Task functions, lines 112-159 *)

(** [get_weather(city)]: the request to the weather service, with the one
    sentence that renders its answer, is an event of the environment. *)
Definition get_weather (city : string) : M unit :=
  if negb (Py.truthy OPENWEATHER_API_KEY) then speak "Weather API key not set."
  else fun w => (Ok tt, record_event (WeatherRequest city) w).

(** [send_email(to_address, subject, message)] *)
Definition send_email (to_address subject message : string) : M unit :=
  if negb (Py.truthy EMAIL_ADDRESS) || negb (Py.truthy EMAIL_PASSWORD)
  then speak "Email credentials are not set. Please configure them in the script."
  else fun w => (Ok tt, record_event (MailRequest to_address subject message) w).

(** [set_reminder(text, minutes)]: the worker thread sleeps
    [max(0, minutes) * 60] seconds and then speaks the reminder. *)
Definition set_reminder (text : string) (minutes : Z) : M unit :=
  (fun w => (Ok tt, start_thread
     {| delay_seconds := Z.max 0 minutes * 60;
        announcement := "Reminder: " ++ text |} w)) ;;
  speak ("Reminder set for " ++ pretty minutes ++ " minutes from now.").

(** [answer_wikipedia(query)] *)
Definition answer_wikipedia (query : string) : M unit :=
  fun w => (Ok tt, record_event (WikipediaRequest query) w).

(** ** The dispatcher, lines 162-257 *)

(** [any(word in command for word in words)] *)
Definition any_in (words : list string) (command : string) : bool :=
  existsb (fun word => Py.contains word command) words.

Definition exit_words : list string := ["exit"; "quit"; "stop"; "bye"].
Definition greeting_words : list string := ["hello"; "hi"; "hey"].
Definition wikipedia_prefixes : list string := ["who is"; "what is"; "tell me about"].

(** Lines 189-198 *)
Definition weather_intent (command : string) : M unit :=
  city ← (if Py.contains " in " command then
            match Py.split_once " in " command !! 1%nat with
            | Some rest => mret (Py.strip rest)
            | None => raise IndexError
            end
          else
            speak "Which city do you want the weather for?" ;;
            city_resp ← listen_vosk;
            mret (if Py.truthy city_resp then city_resp else DEFAULT_CITY));
  get_weather city.

(** Lines 201-208 *)
Definition email_intent : M unit :=
  speak "Who is the recipient? Please type recipient email address:" ;;
  typed_line ← input;
  let to_addr := Py.strip typed_line in
  speak "What is the subject?" ;;
  subject ← listen_vosk;
  speak "What should I say in the email?" ;;
  message ← listen_vosk;
  send_email to_addr subject message.

(** Lines 211-220 *)
Definition reminder_intent : M unit :=
  speak "What should I remind you about?" ;;
  text ← listen_vosk;
  speak "In how many minutes should I remind you?" ;;
  minutes_text ← listen_vosk;
  try_except
    (minutes ← int (Py.keep_digits minutes_text);
     set_reminder text minutes)
    (speak "I couldn't understand the time. Reminder not set.").

(** The loop of lines 224-227: the first prefix that [q] starts with is
    removed once and the rest trimmed. *)
Fixpoint strip_prefix (prefixes : list string) (q : string) : string :=
  match prefixes with
  | [] => q
  | prefix :: rest =>
      if Py.startswith q prefix then Py.strip (Py.replace_once prefix "" q)
      else strip_prefix rest q
  end.

(** Lines 223-235 *)
Definition wikipedia_intent (command : string) : M unit :=
  let q := strip_prefix wikipedia_prefixes command in
  if Py.truthy q then answer_wikipedia q
  else
    speak "What would you like to know about?" ;;
    q2 ← listen_vosk;
    if Py.truthy q2 then answer_wikipedia q2 else mret tt.

(** Lines 248-249: the assignment into the mapping and the save. *)
Definition upsert (trigger response : string) : M unit :=
  (fun w => (Ok tt, set_custom_commands (<[trigger := response]> (custom_commands w)) w)) ;;
  save_custom_commands.

(** Lines 238-251 *)
Definition add_command_intent : M unit :=
  speak "What phrase should trigger the command?" ;;
  trigger ← listen_vosk;
  if negb (Py.truthy trigger) then speak "No trigger received. Cancelled."
  else
    speak "What should I respond when you say that?" ;;
    response ← listen_vosk;
    if negb (Py.truthy response) then speak "No response provided. Cancelled."
    else
      upsert trigger response ;;
      speak ("Custom command added for trigger: " ++ trigger).

Definition process_command (command : string) : M unit :=
  if negb (Py.truthy command) then mret tt
  else if any_in exit_words command then
    speak "Goodbye. Exiting now." ;; sys_exit 0
  else fun w =>
    match custom_commands w !! command with
    | Some response => speak response w
    | None =>
      (if any_in greeting_words command then
         speak "Hello! How can I help you?"
       else if Py.contains "time" command then
         speak ("The current time is " ++ clock_time w)
       else if Py.contains "date" command then
         speak ("Today's date is " ++ clock_date w)
       else if Py.contains "weather" command then
         weather_intent command
       else if Py.contains "send email" command || Py.contains "email" command then
         email_intent
       else if Py.contains "remind me" command || Py.contains "set reminder" command then
         reminder_intent
       else if Py.startswith command "who is" || Py.startswith command "what is"
               || Py.startswith command "tell me about" then
         wikipedia_intent command
       else if Py.contains "add command" command || Py.contains "create command" command then
         add_command_intent
       else if Py.contains "help" command || Py.contains "commands" command then
         speak "You can ask time, date, weather, set reminders, send email, ask Wikipedia, or add custom commands."
       else
         speak "Sorry, I didn't understand that. You can say help to get a list of commands.") w
    end.

(** ** A sample world *)

Definition silence : listen_input := {| recognised := []; typed_fallback := "" |}.

(** The answers of the microphone, call after call; silence afterwards. *)
Definition answers (l : list listen_input) : nat -> listen_input :=
  fun n => nth n l silence.

Definition says (text : string) : listen_input :=
  {| recognised := [text]; typed_fallback := "" |}.

Definition types (text : string) : listen_input :=
  {| recognised := []; typed_fallback := text |}.

(** The world right after start-up. *)
Definition startup (file : option file_content) (writable : bool)
    (mic : nat -> listen_input) (keys : nat -> string) : World :=
  {| custom_commands := load_custom_commands file;
     commands_file := file; file_writable := writable;
     microphone := mic; heard := 0%nat;
     keyboard := keys; typed := 0%nat;
     clock_time := "09:05 AM"; clock_date := "November 03, 2026";
     timers := []; transcript := [] |}.

(** ** The rule table of the dispatcher, as the specification lists it *)

Inductive rule :=
| RNoOp | RExit | RCustom | RGreeting | RTime | RDate | RWeather | REmail
| RReminder | RWikipedia | RAddCommand | RHelp | RFallback.

#[global] Instance rule_eq_dec : EqDecision rule.
Proof. solve_decision. Defined.

(** The matching order: the empty utterance is a no-op, then rules 1 to 12. *)
Definition priority : list rule :=
  [RNoOp; RExit; RCustom; RGreeting; RTime; RDate; RWeather; REmail;
   RReminder; RWikipedia; RAddCommand; RHelp; RFallback].

(** Whether a rule, taken alone, matches an utterance. *)
Definition rule_matches (cc : gmap string string) (u : string) (r : rule) : bool :=
  match r with
  | RNoOp => negb (Py.truthy u)
  | RExit => any_in exit_words u
  | RCustom => bool_decide (is_Some (cc !! u))
  | RGreeting => any_in greeting_words u
  | RTime => Py.contains "time" u
  | RDate => Py.contains "date" u
  | RWeather => Py.contains "weather" u
  | REmail => Py.contains "send email" u || Py.contains "email" u
  | RReminder => Py.contains "remind me" u || Py.contains "set reminder" u
  | RWikipedia => existsb (Py.startswith u) wikipedia_prefixes
  | RAddCommand => Py.contains "add command" u || Py.contains "create command" u
  | RHelp => Py.contains "help" u || Py.contains "commands" u
  | RFallback => true
  end.

(** First match wins. *)
Definition first_match (cc : gmap string string) (u : string) : rule :=
  default RFallback (find (rule_matches cc u) priority).

(** What each rule does once selected. *)
Definition rule_action (r : rule) (u : string) : M unit :=
  match r with
  | RNoOp => mret tt
  | RExit => speak "Goodbye. Exiting now." ;; sys_exit 0
  | RCustom => fun w => speak (default "" (custom_commands w !! u)) w
  | RGreeting => speak "Hello! How can I help you?"
  | RTime => fun w => speak ("The current time is " ++ clock_time w) w
  | RDate => fun w => speak ("Today's date is " ++ clock_date w) w
  | RWeather => weather_intent u
  | REmail => email_intent
  | RReminder => reminder_intent
  | RWikipedia => wikipedia_intent u
  | RAddCommand => add_command_intent
  | RHelp => speak "You can ask time, date, weather, set reminders, send email, ask Wikipedia, or add custom commands."
  | RFallback => speak "Sorry, I didn't understand that. You can say help to get a list of commands."
  end.

(** ** The invariant of the mapping's keys *)

(** Non-empty, trimmed and lowercase. *)
Definition key_ok (k : string) : bool :=
  Py.truthy k && String.eqb (Py.strip k) k && String.eqb (Py.lower k) k.

Definition keys_ok (m : gmap string string) : Prop :=
  map_Forall (fun k _ => key_ok k = true) m.

(** The text the [k]-th coming call of [listen_vosk] returns. *)
Definition upcoming (w : World) (k : nat) : string :=
  listen_result (microphone w (heard w + k)%nat).

(** The integer a run of decimal digits denotes, most significant first. *)
Definition decimal_value (digits : list Z) : Z :=
  fold_left (fun acc d => 10 * acc + d) digits 0.

(** The digit characters of a text, in order of appearance, as numbers. *)
Definition digits_of (s : string) : list Z :=
  Py.digit_value <$> filter (fun c => Py.isdigit c = true) (list_ascii_of_string s).

Definition last_event (w : World) : option event := last (transcript w).

(** * Properties *)

(** ** Characters and strings *)

Section Strings.

Lemma isspace_lower_char c : Py.isspace (Py.lower_char c) = Py.isspace c.
Proof. destruct c as [[] [] [] [] [] [] [] []]; reflexivity. Qed.

Lemma lower_char_idem c : Py.lower_char (Py.lower_char c) = Py.lower_char c.
Proof. destruct c as [[] [] [] [] [] [] [] []]; reflexivity. Qed.

Lemma lower_idem s : Py.lower (Py.lower s) = Py.lower s.
Proof. induction s as [|c s IH]; simpl; [done|]. by rewrite lower_char_idem, IH. Qed.

Lemma lower_lstrip s : Py.lower (Py.lstrip s) = Py.lstrip (Py.lower s).
Proof.
  induction s as [|c s IH]; simpl; [done|].
  rewrite isspace_lower_char. by destruct (Py.isspace c).
Qed.

Lemma lower_rstrip s : Py.lower (Py.rstrip s) = Py.rstrip (Py.lower s).
Proof.
  induction s as [|c s IH]; simpl; [done|].
  rewrite <- IH, isspace_lower_char.
  destruct (Py.rstrip s); simpl; [by destruct (Py.isspace c)|done].
Qed.

Lemma lower_strip s : Py.lower (Py.strip s) = Py.strip (Py.lower s).
Proof. unfold Py.strip. by rewrite lower_lstrip, lower_rstrip. Qed.

Lemma lstrip_idem s : Py.lstrip (Py.lstrip s) = Py.lstrip s.
Proof.
  induction s as [|c s IH]; simpl; [done|].
  destruct (Py.isspace c) eqn:E; [done|]. simpl. by rewrite E.
Qed.

Lemma rstrip_idem s : Py.rstrip (Py.rstrip s) = Py.rstrip s.
Proof.
  induction s as [|c s IH]; simpl; [done|].
  destruct (Py.rstrip s) as [|d r] eqn:E.
  - destruct (Py.isspace c) eqn:Ec; simpl; [done|]. by rewrite Ec.
  - simpl in *. by rewrite IH.
Qed.

Lemma rstrip_empty_lstrip s : Py.rstrip s = "" -> Py.lstrip s = "".
Proof.
  induction s as [|c s IH]; simpl; [done|].
  destruct (Py.rstrip s); [|done].
  destruct (Py.isspace c); [auto|done].
Qed.

Lemma rstrip_lstrip s : Py.rstrip (Py.lstrip s) = Py.lstrip (Py.rstrip s).
Proof.
  induction s as [|c s IH]; simpl; [done|].
  destruct (Py.isspace c) eqn:Ec.
  - destruct (Py.rstrip s) as [|d r] eqn:E.
    + simpl. apply rstrip_empty_lstrip in E as E'. by rewrite E'.
    + rewrite IH. simpl. by rewrite Ec.
  - simpl. destruct (Py.rstrip s); simpl; by rewrite Ec.
Qed.

Lemma strip_idem s : Py.strip (Py.strip s) = Py.strip s.
Proof.
  unfold Py.strip.
  by rewrite (rstrip_lstrip (Py.rstrip s)), rstrip_idem, lstrip_idem.
Qed.

Lemma truthy_true s : Py.truthy s = true <-> s <> "".
Proof. by destruct s. Qed.

Lemma truthy_false s : Py.truthy s = false <-> s = "".
Proof. by destruct s. Qed.

(** A text returned by a listen is trimmed and lowercase. *)
Lemma normalise_key_ok s :
  Py.truthy (normalise s) = true -> key_ok (normalise s) = true.
Proof.
  intros H. unfold key_ok. rewrite H. simpl.
  unfold normalise at 1 3.
  rewrite <- lower_strip at 1. unfold normalise.
  rewrite strip_idem, lower_idem. by rewrite !String.eqb_refl.
Qed.

Lemma first_heard_normalised l text :
  first_heard l = Some text -> exists s, text = normalise s /\ Py.truthy text = true.
Proof.
  induction l as [|res rest IH]; simpl; [done|].
  destruct (Py.truthy (normalise res)) eqn:E; [|done].
  intros [= <-]. eauto.
Qed.

Lemma listen_result_key_ok i :
  Py.truthy (listen_result i) = true -> key_ok (listen_result i) = true.
Proof.
  unfold listen_result. destruct (first_heard (recognised i)) as [text|] eqn:E.
  - apply first_heard_normalised in E as (s & -> & _). apply normalise_key_ok.
  - apply normalise_key_ok.
Qed.

End Strings.

(** ** Running the monad *)

Arguments any_in : simpl never.
Arguments Py.contains : simpl never.
Arguments Py.startswith : simpl never.
Arguments Py.strip : simpl never.
Arguments Py.keep_digits : simpl never.
Arguments Py.parse_int : simpl never.

(** The world a call of [listen_vosk] leaves behind. *)
Definition after_listen (w : World) : World :=
  record_event
    (match first_heard (recognised (microphone w (heard w))) with
     | Some text => Printed ("You said: " ++ text)
     | None => Spoke "I couldn't hear clearly. Please type your command:"
     end)
    (advance_microphone (record_event (Spoke "Listening now.") w)).

Section Run.

Context {A B : Type}.

Lemma bind_ok (m : M A) (k : A -> M B) w a w' :
  m w = (Ok a, w') -> (m ≫= k) w = k a w'.
Proof. intros H. unfold mbind, M_bind. by rewrite H. Qed.

Lemma bind_raise (m : M A) (k : A -> M B) w e w' :
  m w = (Raise e, w') -> (m ≫= k) w = (Raise e, w').
Proof. intros H. unfold mbind, M_bind. by rewrite H. Qed.

End Run.

Lemma listen_vosk_run w : listen_vosk w = (Ok (upcoming w 0), after_listen w).
Proof.
  unfold listen_vosk, upcoming, after_listen, listen_result, mbind, M_bind, speak, print.
  simpl. rewrite Nat.add_0_r.
  by destruct (first_heard (recognised (microphone w (heard w)))).
Qed.

Lemma bind_speak {B} text (k : unit -> M B) w :
  (speak text ≫= k) w = k tt (record_event (Spoke text) w).
Proof. reflexivity. Qed.

Lemma bind_listen {B} (k : string -> M B) w :
  (listen_vosk ≫= k) w = k (upcoming w 0) (after_listen w).
Proof. apply bind_ok, listen_vosk_run. Qed.

Lemma upcoming_after_listen w k : upcoming (after_listen w) k = upcoming w (S k).
Proof. unfold upcoming. simpl. by rewrite Nat.add_succ_r. Qed.

Lemma upcoming_record_event e w k : upcoming (record_event e w) k = upcoming w k.
Proof. reflexivity. Qed.

Ltac listens :=
  repeat first [rewrite upcoming_record_event | rewrite upcoming_after_listen].

(** ** Actions that leave the command store alone *)

Definition keeps_store {A} (m : M A) : Prop :=
  forall w, custom_commands (exec m w) = custom_commands w /\
            commands_file (exec m w) = commands_file w.

Create HintDb store discriminated.

Section Frame.

Context {A B : Type}.

Lemma keeps_bind (m : M A) (k : A -> M B) :
  keeps_store m -> (forall a, keeps_store (k a)) -> keeps_store (m ≫= k).
Proof.
  intros Hm Hk w. unfold exec, mbind, M_bind.
  destruct (Hm w) as [H1 H2]. unfold exec in H1, H2.
  destruct (m w) as [[a|e] w1]; simpl in *; [|done].
  destruct (Hk a w1) as [H3 H4]. unfold exec in H3, H4.
  by rewrite H3, H4.
Qed.

Lemma keeps_try (body handler : M A) :
  keeps_store body -> keeps_store handler -> keeps_store (try_except body handler).
Proof.
  intros Hb Hh w. unfold exec, try_except.
  destruct (Hb w) as [H1 H2]. unfold exec in H1, H2.
  destruct (body w) as [[a|e] w1]; simpl in *; [done|].
  destruct (Hh w1) as [H3 H4]. unfold exec in H3, H4.
  by rewrite H3, H4.
Qed.

Lemma keeps_ret (a : A) : keeps_store (mret a).
Proof. done. Qed.

Lemma keeps_raise e : keeps_store (raise (A := A) e).
Proof. done. Qed.

Lemma keeps_if (b : bool) (m1 m2 : M A) :
  keeps_store m1 -> keeps_store m2 -> keeps_store (if b then m1 else m2).
Proof. by destruct b. Qed.

End Frame.

Lemma keeps_speak text : keeps_store (speak text).
Proof. done. Qed.

Lemma keeps_print text : keeps_store (print text).
Proof. done. Qed.

Lemma keeps_input : keeps_store input.
Proof. done. Qed.

Lemma keeps_listen : keeps_store listen_vosk.
Proof. intros w. unfold exec. by rewrite listen_vosk_run. Qed.

Lemma keeps_int s : keeps_store (int s).
Proof. unfold int. by destruct (Py.parse_int s). Qed.

Lemma keeps_get_weather city : keeps_store (get_weather city).
Proof. done. Qed.

Lemma keeps_send_email t s m : keeps_store (send_email t s m).
Proof. done. Qed.

Lemma keeps_set_reminder text minutes : keeps_store (set_reminder text minutes).
Proof. done. Qed.

Lemma keeps_answer_wikipedia q : keeps_store (answer_wikipedia q).
Proof. done. Qed.

#[global] Hint Resolve keeps_ret keeps_raise keeps_speak keeps_print keeps_input
  keeps_listen keeps_int keeps_get_weather keeps_send_email keeps_set_reminder
  keeps_answer_wikipedia : store.

Ltac frame :=
  repeat first
    [ apply keeps_bind; [|intros ?]
    | apply keeps_try
    | apply keeps_if
    | solve [auto with store]
    | match goal with |- keeps_store (match ?x with _ => _ end) => destruct x end ].

Lemma keeps_weather_intent u : keeps_store (weather_intent u).
Proof. unfold weather_intent. frame. Qed.

Lemma keeps_email_intent : keeps_store email_intent.
Proof. unfold email_intent. frame. Qed.

Lemma keeps_reminder_intent : keeps_store reminder_intent.
Proof. unfold reminder_intent. frame. Qed.

Lemma keeps_wikipedia_intent u : keeps_store (wikipedia_intent u).
Proof. unfold wikipedia_intent. frame. Qed.

(** ** The dispatcher follows the rule table *)

Lemma process_command_dispatch u w :
  process_command u w = rule_action (first_match (custom_commands w) u) u w.
Proof.
  unfold process_command, first_match. simpl.
  destruct (Py.truthy u) eqn:Hu; simpl; [|done].
  destruct (any_in exit_words u) eqn:He; simpl; [done|].
  destruct (custom_commands w !! u) as [r|] eqn:Hc; simpl.
  { by rewrite Hc. }
  destruct (any_in greeting_words u); simpl; [done|].
  destruct (Py.contains "time" u); simpl; [done|].
  destruct (Py.contains "date" u); simpl; [done|].
  destruct (Py.contains "weather" u); simpl; [done|].
  destruct (Py.contains "send email" u || Py.contains "email" u); simpl; [done|].
  destruct (Py.contains "remind me" u || Py.contains "set reminder" u); simpl; [done|].
  rewrite orb_false_r, <- orb_assoc.
  destruct (Py.startswith u "who is" || (Py.startswith u "what is" || Py.startswith u "tell me about"));
    simpl; [done|].
  destruct (Py.contains "add command" u || Py.contains "create command" u); simpl; [done|].
  destruct (Py.contains "help" u || Py.contains "commands" u); simpl; done.
Qed.

(** ** Reading the minutes of a reminder *)

Section Minutes.

Lemma isdigit_not_space c : Py.isdigit c = true -> Py.isspace c = false.
Proof. destruct c as [[] [] [] [] [] [] [] []]; vm_compute; congruence. Qed.

Lemma keep_digits_head s c k :
  Py.keep_digits s = String c k -> Py.isdigit c = true.
Proof.
  unfold Py.keep_digits.
  induction s as [|a s IH]; [done|]. fold Py.keep_digits in *.
  destruct (Py.isdigit a) eqn:E; [|done]. by intros [= <- _].
Qed.

Lemma keep_digits_cons a s :
  Py.keep_digits (String a s) =
  if Py.isdigit a then String a (Py.keep_digits s) else Py.keep_digits s.
Proof. reflexivity. Qed.

Lemma rstrip_keep_digits s : Py.rstrip (Py.keep_digits s) = Py.keep_digits s.
Proof.
  induction s as [|a s IH]; [done|]. rewrite keep_digits_cons.
  destruct (Py.isdigit a) eqn:E; [|done].
  simpl. rewrite IH, (isdigit_not_space _ E). by destruct (Py.keep_digits s).
Qed.

Lemma strip_keep_digits s : Py.strip (Py.keep_digits s) = Py.keep_digits s.
Proof.
  unfold Py.strip. rewrite rstrip_keep_digits.
  destruct (Py.keep_digits s) as [|c k] eqn:E; [done|].
  simpl. by rewrite (isdigit_not_space _ (keep_digits_head _ _ _ E)).
Qed.

Lemma digits_of_cons a s :
  digits_of (String a s) =
  if Py.isdigit a then Py.digit_value a :: digits_of s else digits_of s.
Proof.
  unfold digits_of. simpl. rewrite filter_cons.
  destruct (Py.isdigit a) eqn:E; by case_decide.
Qed.

Lemma int_digits_keep_digits acc b s :
  Py.int_digits acc b (Py.keep_digits s) =
  match digits_of s with
  | [] => if b then Some acc else None
  | ds => Some (fold_left (fun acc d => 10 * acc + d) ds acc)
  end.
Proof.
  revert acc b. induction s as [|a s IH]; intros acc b; [done|].
  rewrite keep_digits_cons, digits_of_cons.
  destruct (Py.isdigit a) eqn:E; [|apply IH].
  simpl. rewrite E, IH. by destruct (digits_of s).
Qed.

(** Line 216 on any text: a [ValueError] when the text has no digit,
    otherwise the number its digits spell. *)
Lemma parse_minutes s :
  Py.parse_int (Py.keep_digits s) =
  match digits_of s with
  | [] => None
  | ds => Some (decimal_value ds)
  end.
Proof.
  unfold Py.parse_int, decimal_value. rewrite strip_keep_digits.
  rewrite <- (int_digits_keep_digits 0 false s).
  destruct (Py.keep_digits s) as [|c k] eqn:E; [done|].
  apply keep_digits_head in E.
  destruct c as [[] [] [] [] [] [] [] []]; first [discriminate E | reflexivity].
Qed.

Lemma digits_of_keep_digits s : digits_of s = [] <-> Py.keep_digits s = "".
Proof.
  induction s as [|a s IH]; [done|].
  rewrite keep_digits_cons, digits_of_cons. by destruct (Py.isdigit a).
Qed.

End Minutes.

(** ** The reminder intent, step by step *)

Definition asked_reminder (w : World) : World :=
  after_listen (record_event (Spoke "In how many minutes should I remind you?")
    (after_listen (record_event (Spoke "What should I remind you about?") w))).

Lemma reminder_intent_run w :
  reminder_intent w =
  match Py.parse_int (Py.keep_digits (upcoming w 1)) with
  | Some minutes => set_reminder (upcoming w 0) minutes (asked_reminder w)
  | None => speak "I couldn't understand the time. Reminder not set." (asked_reminder w)
  end.
Proof.
  unfold reminder_intent.
  rewrite bind_speak, bind_listen, bind_speak, bind_listen.
  listens.
  unfold try_except, int, asked_reminder.
  by destruct (Py.parse_int (Py.keep_digits (upcoming w 1))).
Qed.


Lemma reminder_rule_run u w :
  first_match (custom_commands w) u = RReminder ->
  process_command u w =
  match digits_of (upcoming w 1) with
  | [] => speak "I couldn't understand the time. Reminder not set." (asked_reminder w)
  | ds => set_reminder (upcoming w 0) (decimal_value ds) (asked_reminder w)
  end.
Proof.
  intros Hr. rewrite process_command_dispatch, Hr. simpl.
  rewrite reminder_intent_run, parse_minutes.
  by destruct (digits_of (upcoming w 1)).
Qed.

(** Sample worlds for the reminder dialogue. *)
Definition reminder_world (minutes_text : string) : World :=
  startup None true (answers [says "tea"; says minutes_text]) (fun _ => "").



(** C5, as stated, fails: the text "uh twenty" has no digit character, so
    the conversion raises and no reminder is started. *)
Lemma uh_twenty_is_not_twenty :
  Py.parse_int (Py.keep_digits "uh twenty") = None /\
  Py.parse_int (Py.keep_digits "uh twenty") <> Some 20 /\
  timers (exec (process_command "remind me") (reminder_world "uh twenty")) = [] /\
  last_event (exec (process_command "remind me") (reminder_world "uh twenty")) =
    Some (Spoke "I couldn't understand the time. Reminder not set.").
Proof. repeat split; first [reflexivity | discriminate]. Qed.

(** C5, amended: the answer "uh twenty", which spells the number in letters,
    is not understood and no reminder is started; the answer "uh 20" starts
    a reminder of 20 minutes. *)
Theorem reminder_spelled_or_digits (u : string) (w : World) :
  first_match (custom_commands w) u = RReminder ->
  let w' := exec (process_command u) w in
  (upcoming w 1 = "uh twenty" ->
     timers w' = timers w /\
     last_event w' = Some (Spoke "I couldn't understand the time. Reminder not set.")) /\
  (upcoming w 1 = "uh 20" ->
     timers w' =
       (timers w ++ [{| delay_seconds := 20 * 60;
                        announcement := "Reminder: " ++ upcoming w 0 |}])%list).
Proof.
  intros Hr w'. subst w'. unfold exec. rewrite (reminder_rule_run _ _ Hr).
  split; intros ->.
  - split; [done|]. unfold last_event. simpl. apply last_snoc.
  - reflexivity.
Qed.

Lemma reminder_spelled_or_digits_witness :
  timers (exec (process_command "set reminder") (reminder_world "uh twenty")) = [] /\
  timers (exec (process_command "set reminder") (reminder_world "uh 20")) =
    [{| delay_seconds := 1200; announcement := "Reminder: tea" |}].
Proof.
  split.
  - apply (reminder_spelled_or_digits "set reminder" (reminder_world "uh twenty"));
      reflexivity.
  - apply (reminder_spelled_or_digits "set reminder" (reminder_world "uh 20"));
      reflexivity.
Defined.



(** ** Splitting at the first separator *)

Section Split.

Lemma startswith_nil s : Py.startswith s "" = true.
Proof. by destruct s. Qed.

Lemma startswith_cons a p b s :
  Py.startswith (String b s) (String a p) = Ascii.eqb a b && Py.startswith s p.
Proof. reflexivity. Qed.

Lemma startswith_app sep rest : Py.startswith (sep ++ rest) sep = true.
Proof.
  induction sep as [|a sep IH]; [apply startswith_nil|].
  change (String a sep ++ rest) with (String a (sep ++ rest)).
  by rewrite startswith_cons, Ascii.eqb_refl, IH.
Qed.

Lemma startswith_drop s sep :
  Py.startswith s sep = true -> s = sep ++ Py.drop (String.length sep) s.
Proof.
  revert s. induction sep as [|a sep IH]; intros s; [done|].
  destruct s as [|b s]; [done|]. rewrite startswith_cons.
  intros [Hab Hs]%andb_prop. apply Ascii.eqb_eq in Hab as ->.
  simpl. change (String b sep ++ ?x) with (String b (sep ++ x)).
  f_equal. by apply IH.
Qed.

Lemma contains_cons sub c s :
  Py.contains sub (String c s) = Py.startswith (String c s) sub || Py.contains sub s.
Proof. reflexivity. Qed.

(** When the separator occurs, [split_once] cuts the text at its first
    occurrence. *)
Lemma split_once_first sep s :
  Py.contains sep s = true ->
  exists before after,
    Py.split_once sep s = [before; after] /\
    s = before ++ sep ++ after /\
    forall before' after', s = before' ++ sep ++ after' ->
      (String.length before <= String.length before')%nat.
Proof.
  induction s as [|c s IH]; intros Hin.
  - unfold Py.contains in Hin. rewrite orb_false_r in Hin.
    exists "", (Py.drop (String.length sep) ""). simpl. rewrite Hin.
    repeat split; [by apply startswith_drop | intros; lia].
  - simpl. rewrite contains_cons in Hin.
    destruct (Py.startswith (String c s) sep) eqn:Hp.
    + exists "", (Py.drop (String.length sep) (String c s)).
      repeat split; [by apply startswith_drop | intros; simpl; lia].
    + simpl in Hin. destruct (IH Hin) as (b & a & Hsplit & Hs & Hmin).
      rewrite Hsplit. exists (String c b), a.
      repeat split; [by rewrite Hs at 1|].
      intros [|c' b'] a' Heq.
      * change (String c s = sep ++ a') in Heq.
        rewrite Heq, startswith_app in Hp. done.
      * change (String c s = String c' (b' ++ sep ++ a')) in Heq.
        injection Heq as _ Heq. simpl. apply le_n_S. eauto.
Qed.

End Split.

(** ** The weather intent *)

Definition asked_city (w : World) : World :=
  after_listen (record_event (Spoke "Which city do you want the weather for?") w).

Lemma weather_intent_run u w :
  weather_intent u w =
  if Py.contains " in " u then
    match Py.split_once " in " u !! 1%nat with
    | Some rest => get_weather (Py.strip rest) w
    | None => (Raise IndexError, w)
    end
  else
    get_weather (if Py.truthy (upcoming w 0) then upcoming w 0 else DEFAULT_CITY)
                (asked_city w).
Proof.
  unfold weather_intent. destruct (Py.contains " in " u).
  - unfold mbind, M_bind. by destruct (Py.split_once " in " u !! 1%nat).
  - unfold mbind at 1. unfold M_bind.
    rewrite bind_speak, bind_listen. listens. reflexivity.
Qed.

(** C7: when an utterance handled by the weather rule contains " in ", the
    weather service is asked for the trimmed text that follows the first
    " in ", and nothing is listened for; "weather in Paris" asks for "Paris".
    Without the separator the dispatcher asks for a city, listens once and
    uses the answer, or the default city when the answer is empty. *)
Theorem weather_city (u : string) (w : World) :
  first_match (custom_commands w) u = RWeather ->
  let w' := exec (process_command u) w in
  (Py.contains " in " u = true ->
     exists before after,
       u = before ++ " in " ++ after /\
       (forall before' after', u = before' ++ " in " ++ after' ->
          (String.length before <= String.length before')%nat) /\
       outcome (process_command u) w = Ok tt /\
       transcript w' = (transcript w ++ [WeatherRequest (Py.strip after)])%list /\
       heard w' = heard w) /\
  (Py.contains " in " u = false ->
     outcome (process_command u) w = Ok tt /\
     In (Spoke "Which city do you want the weather for?") (transcript w') /\
     heard w' = S (heard w) /\
     last_event w' =
       Some (WeatherRequest
               (if Py.truthy (upcoming w 0) then upcoming w 0 else DEFAULT_CITY))) /\
  (custom_commands w !! "weather in Paris" = None ->
     transcript (exec (process_command "weather in Paris") w) =
       (transcript w ++ [WeatherRequest "Paris"])%list).
Proof.
  intros Hr w'. subst w'. unfold exec, outcome.
  rewrite process_command_dispatch, Hr. simpl. rewrite weather_intent_run.
  split; [|split].
  - intros Hin. rewrite Hin.
    destruct (split_once_first _ _ Hin) as (b & a & Hsplit & Hu & Hmin).
    exists b, a. rewrite Hsplit. simpl. done.
  - intros Hin. rewrite Hin. repeat split.
    + simpl. rewrite !in_app_iff. simpl. tauto.
    + unfold last_event. simpl. apply last_snoc.
  - intros Hc. rewrite process_command_dispatch.
    unfold first_match. simpl. rewrite Hc. reflexivity.
Qed.

Lemma weather_city_witness :
  transcript (exec (process_command "what is the weather in  new york ")
                (startup None true (answers []) (fun _ => ""))) =
    [WeatherRequest "new york"] /\
  last_event (exec (process_command "weather please")
                (startup None true (answers [says "Oslo"]) (fun _ => ""))) =
    Some (WeatherRequest "oslo") /\
  last_event (exec (process_command "weather please")
                (startup None true (answers []) (fun _ => ""))) =
    Some (WeatherRequest "Chennai").
Proof.
  split; [|split].
  - destruct (weather_city "what is the weather in  new york "
                (startup None true (answers []) (fun _ => "")) eq_refl)
      as [H _].
    destruct (H eq_refl) as (b & a & Hu & Hmin & _ & Ht & _).
    reflexivity.
  - apply (weather_city "weather please"
             (startup None true (answers [says "Oslo"]) (fun _ => "")));
      reflexivity.
  - apply (weather_city "weather please"
             (startup None true (answers []) (fun _ => "")));
      reflexivity.
Defined.

(** ** The add-command intent *)

Definition asked_trigger (w : World) : World :=
  after_listen (record_event (Spoke "What phrase should trigger the command?") w).

Definition asked_response (w : World) : World :=
  after_listen (record_event (Spoke "What should I respond when you say that?")
                  (asked_trigger w)).

Lemma add_command_intent_run w :
  add_command_intent w =
  if negb (Py.truthy (upcoming w 0)) then
    speak "No trigger received. Cancelled." (asked_trigger w)
  else if negb (Py.truthy (upcoming w 1)) then
    speak "No response provided. Cancelled." (asked_response w)
  else
    (upsert (upcoming w 0) (upcoming w 1) ;;
     speak ("Custom command added for trigger: " ++ upcoming w 0)) (asked_response w).
Proof.
  unfold add_command_intent, asked_response, asked_trigger.
  rewrite bind_speak, bind_listen. listens.
  destruct (Py.truthy (upcoming w 0)); simpl; [|reflexivity].
  rewrite bind_speak, bind_listen. listens.
  destruct (Py.truthy (upcoming w 1)); cbn [negb]; reflexivity.
Qed.

Lemma upsert_run t r w :
  upsert t r w =
  let w1 := set_custom_commands (<[t := r]> (custom_commands w)) w in
  if file_writable w
  then (Ok tt, write_file (Document (<[t := r]> (custom_commands w))) w1)
  else (Ok tt, record_event (Printed "Failed to save custom commands:") w1).
Proof.
  unfold upsert, mbind, M_bind, save_custom_commands. simpl.
  by destruct (file_writable w).
Qed.

Lemma add_command_rule_run u w :
  first_match (custom_commands w) u = RAddCommand ->
  process_command u w = add_command_intent w.
Proof. intros Hr. by rewrite process_command_dispatch, Hr. Qed.

(** Sample worlds for the add-command dialogue. *)
Definition dialogue_world (file : option file_content) (l : list listen_input) : World :=
  startup file true (answers l) (fun _ => "").

(** C9: in the add-command intent an empty trigger, or an empty response
    after a non-empty trigger, ends the intent with a cancellation sentence
    and leaves the mapping and the commands file as they were; when both are
    non-empty the pair is put into the mapping, the mapping is written to the
    file (when the file can be written) and the addition is confirmed. *)
Theorem add_command_cancel_or_store (u : string) (w : World) :
  first_match (custom_commands w) u = RAddCommand ->
  let trigger := upcoming w 0 in
  let response := upcoming w 1 in
  let w' := exec (process_command u) w in
  outcome (process_command u) w = Ok tt /\
  (trigger = "" ->
     custom_commands w' = custom_commands w /\
     commands_file w' = commands_file w /\
     last_event w' = Some (Spoke "No trigger received. Cancelled.")) /\
  (trigger <> "" -> response = "" ->
     custom_commands w' = custom_commands w /\
     commands_file w' = commands_file w /\
     last_event w' = Some (Spoke "No response provided. Cancelled.")) /\
  (trigger <> "" -> response <> "" ->
     custom_commands w' = <[trigger := response]> (custom_commands w) /\
     (file_writable w = true ->
        commands_file w' = Some (Document (<[trigger := response]> (custom_commands w)))) /\
     last_event w' = Some (Spoke ("Custom command added for trigger: " ++ trigger))).
Proof.
  intros Hr trigger response w'. subst trigger response w'.
  unfold exec, outcome, last_event.
  rewrite (add_command_rule_run _ _ Hr), add_command_intent_run.
  destruct (Py.truthy (upcoming w 0)) eqn:Ht; simpl.
  - apply truthy_true in Ht.
    destruct (Py.truthy (upcoming w 1)) eqn:Hresp; simpl.
    + apply truthy_true in Hresp.
      unfold mbind, M_bind. rewrite upsert_run. simpl.
      destruct (file_writable w) eqn:Hw; simpl;
        (split; [done|]); (split; [done|]); (split; [done|]);
        intros _ _; (split; [done|]); (split; [done|]); apply last_snoc.
    + apply truthy_false in Hresp.
      split; [done|]. split; [done|]. split; [|done].
      intros _ _. repeat split. apply last_snoc.
  - apply truthy_false in Ht.
    split; [done|]. split; [|done].
    intros _. repeat split. apply last_snoc.
Qed.

Lemma add_command_cancel_or_store_witness :
  (let w := dialogue_world None [says "good morning"; types ""] in
   custom_commands (exec (process_command "add command") w) = custom_commands w /\
   commands_file (exec (process_command "add command") w) = commands_file w /\
   last_event (exec (process_command "add command") w) =
     Some (Spoke "No response provided. Cancelled.")) /\
  (let w := dialogue_world None [types "  "] in
   custom_commands (exec (process_command "create command") w) = custom_commands w /\
   commands_file (exec (process_command "create command") w) = commands_file w /\
   last_event (exec (process_command "create command") w) =
     Some (Spoke "No trigger received. Cancelled.")) /\
  (let w := dialogue_world None [says "good morning"; says "have a nice day"] in
   custom_commands (exec (process_command "add command") w) !! "good morning" =
     Some "have a nice day").
Proof.
  split; [|split].
  - apply (add_command_cancel_or_store "add command"
             (dialogue_world None [says "good morning"; types ""]));
      [reflexivity | discriminate | reflexivity].
  - apply (add_command_cancel_or_store "create command"
             (dialogue_world None [types "  "]));
      reflexivity.
  - destruct (add_command_cancel_or_store "add command"
                (dialogue_world None [says "good morning"; says "have a nice day"])
                eq_refl) as (_ & _ & _ & H).
    destruct H as (Hc & _); [discriminate | discriminate |].
    cbv zeta. rewrite Hc. reflexivity.
Defined.

(** C8: for a non-empty trigger and a non-empty response, after the
    assignment into the mapping and a save that could write the file, the
    mapping loaded from that file by a fresh process holds the response under
    the trigger; so it is after the whole add-command dialogue. *)
Theorem upsert_load_round_trip (t r : string) (w : World) :
  t <> "" -> r <> "" -> file_writable w = true ->
  (forall writable mic keys,
     custom_commands (startup (commands_file (exec (upsert t r) w)) writable mic keys) !! t
       = Some r) /\
  (forall u writable mic keys,
     first_match (custom_commands w) u = RAddCommand ->
     upcoming w 0 = t -> upcoming w 1 = r ->
     custom_commands (startup (commands_file (exec (process_command u) w)) writable mic keys) !! t
       = Some r).
Proof.
  intros Ht Hresp Hw. split.
  - intros writable mic keys. unfold exec. rewrite upsert_run. simpl.
    rewrite Hw. simpl. apply lookup_insert_eq.
  - intros u writable mic keys Hr H0 H1. unfold exec.
    rewrite (add_command_rule_run _ _ Hr), add_command_intent_run, H0, H1.
    apply truthy_true in Ht, Hresp. rewrite Ht, Hresp. simpl.
    unfold mbind, M_bind. rewrite upsert_run. simpl. rewrite Hw. simpl.
    apply lookup_insert_eq.
Qed.

Lemma upsert_load_round_trip_witness :
  custom_commands
    (startup
       (commands_file
          (exec (upsert "good morning" "have a nice day")
                (dialogue_world (Some (Document {["bye now" := "see you"]})) [])))
       true (answers []) (fun _ => "")) !! "good morning" = Some "have a nice day".
Proof.
  apply (upsert_load_round_trip "good morning" "have a nice day"
           (dialogue_world (Some (Document {["bye now" := "see you"]})) []));
    first [discriminate | reflexivity].
Defined.

(** ** Custom commands and the order of the rules *)

(** A start-up world whose commands file holds the given mapping. *)
Definition world_with_commands (m : gmap string string) : World :=
  startup (Some (Document m)) true (answers []) (fun _ => "").

(** C1, as stated, fails on the empty utterance: a commands file may hold the
    empty trigger, the empty utterance contains no exit word and equals that
    trigger, yet the dispatcher returns at its first test and speaks
    nothing. *)
Lemma empty_trigger_is_never_spoken :
  let w := world_with_commands {["" := "at your service"]} in
  any_in exit_words "" = false /\
  custom_commands w !! "" = Some "at your service" /\
  process_command "" w = (Ok tt, w) /\
  transcript (exec (process_command "") w) = [] /\
  process_command "" w <> speak "at your service" w.
Proof. vm_compute. repeat split; discriminate. Qed.

(** C1, amended: for every non-empty utterance that contains no exit word
    and equals a trigger of the mapping, the dispatcher speaks the stored
    response, returns, and does nothing else: no built-in rule is looked at,
    whatever keywords the trigger contains. *)
Theorem custom_command_priority (u r : string) (w : World) :
  u <> "" ->
  any_in exit_words u = false ->
  custom_commands w !! u = Some r ->
  first_match (custom_commands w) u = RCustom /\
  process_command u w = (Ok tt, record_event (Spoke r) w) /\
  transcript (exec (process_command u) w) = (transcript w ++ [Spoke r])%list.
Proof.
  intros Hu He Hc. apply truthy_true in Hu.
  assert (first_match (custom_commands w) u = RCustom) as Hr.
  { unfold first_match. simpl. by rewrite Hu, He, Hc. }
  split; [done|].
  assert (process_command u w = (Ok tt, record_event (Spoke r) w)) as Hp.
  { rewrite process_command_dispatch, Hr. simpl. by rewrite Hc. }
  split; [done|]. unfold exec. by rewrite Hp.
Qed.

Lemma custom_command_priority_witness :
  transcript (exec (process_command "hello what time is it")
                (world_with_commands {["hello what time is it" := "time for tea"]})) =
  [Spoke "time for tea"].
Proof.
  apply (custom_command_priority "hello what time is it" "time for tea"
           (world_with_commands {["hello what time is it" := "time for tea"]}));
    first [discriminate | reflexivity].
Defined.

Lemma first_match_exit cc u :
  Py.truthy u = true -> any_in exit_words u = true -> first_match cc u = RExit.
Proof. intros Hu He. unfold first_match. simpl. by rewrite Hu, He. Qed.

Lemma contains_truthy sub u :
  Py.truthy sub = true -> Py.contains sub u = true -> Py.truthy u = true.
Proof. destruct sub; [done|]. by destruct u. Qed.

(** C2, as stated, fails: an utterance with both "hello" and "time" does not
    resolve to the greeting when it also holds an exit word (the process
    exits) or is itself a trigger of the mapping (the stored response is
    spoken), both rules being placed before the greeting. *)
Lemma hello_and_time_without_greeting :
  let u := "hello is it time to stop" in
  let v := "hello what time is it" in
  let w := world_with_commands {[v := "time for tea"]} in
  Py.contains "hello" u = true /\ Py.contains "time" u = true /\
  process_command u w =
    (Raise (SystemExit 0), record_event (Spoke "Goodbye. Exiting now.") w) /\
  Py.contains "hello" v = true /\ Py.contains "time" v = true /\
  process_command v w = (Ok tt, record_event (Spoke "time for tea") w) /\
  process_command u w <> speak "Hello! How can I help you?" w /\
  process_command v w <> speak "Hello! How can I help you?" w.
Proof. vm_compute. repeat split; discriminate. Qed.

(** C2, amended: the dispatcher does what the first rule of the priority
    list that matches the utterance prescribes, whatever later rules match as
    well.  With both "hello" and "time" in the utterance the time rule is
    never the one selected: the greeting is, unless one of the two rules
    placed before it (exit words, custom command) matches.  With both "bye"
    and "hello" the exit rule is selected: the farewell is spoken and the
    process exits with status 0. *)
Theorem first_matching_rule_wins (u : string) (w : World) :
  process_command u w = rule_action (first_match (custom_commands w) u) u w /\
  (exists before after,
     priority = (before ++ first_match (custom_commands w) u :: after)%list /\
     rule_matches (custom_commands w) u (first_match (custom_commands w) u) = true /\
     Forall (fun r => rule_matches (custom_commands w) u r = false) before) /\
  (Py.contains "hello" u = true -> Py.contains "time" u = true ->
     first_match (custom_commands w) u ∈ [RExit; RCustom; RGreeting] /\
     (any_in exit_words u = false -> custom_commands w !! u = None ->
        process_command u w = (Ok tt, record_event (Spoke "Hello! How can I help you?") w))) /\
  (Py.contains "bye" u = true -> Py.contains "hello" u = true ->
     first_match (custom_commands w) u = RExit /\
     process_command u w =
       (Raise (SystemExit 0), record_event (Spoke "Goodbye. Exiting now.") w)).
Proof.
  split; [apply process_command_dispatch|]. split; [|split].
  - unfold first_match.
    destruct (find (rule_matches (custom_commands w) u) priority) as [r|] eqn:Hf.
    + simpl. destruct (find_some _ _ Hf) as [_ Hm].
      revert Hf. generalize priority. intros l. induction l as [|x l IH]; [done|].
      simpl. destruct (rule_matches (custom_commands w) u x) eqn:Hx.
      * intros [= ->]. by exists [], l.
      * intros Hf. destruct (IH Hf) as (b & a & -> & _ & Hb).
        exists (x :: b), a. repeat split; [done|]. by constructor.
    + assert (rule_matches (custom_commands w) u RFallback = false) as Hn; [|done].
      apply (find_none _ _ Hf RFallback).
      unfold priority. rewrite <- list_elem_of_In. set_solver.
  - intros Hh Ht.
    assert (Py.truthy u = true) as Hu by (by eapply contains_truthy, Hh).
    assert (any_in greeting_words u = true) as Hg.
    { unfold any_in, greeting_words. simpl. by rewrite Hh. }
    split.
    + unfold first_match. simpl. rewrite Hu. simpl.
      destruct (any_in exit_words u); simpl; [set_solver|].
      destruct (custom_commands w !! u); simpl; [set_solver|].
      rewrite Hg. simpl. set_solver.
    + intros He Hc. rewrite process_command_dispatch.
      unfold first_match. simpl. by rewrite Hu, He, Hc, Hg.
  - intros Hb Hh.
    assert (Py.truthy u = true) as Hu by (by eapply contains_truthy, Hh).
    assert (any_in exit_words u = true) as He.
    { unfold any_in, exit_words. simpl. rewrite Hb. by rewrite !orb_true_r. }
    split; [by apply first_match_exit|].
    rewrite process_command_dispatch, first_match_exit by done. reflexivity.
Qed.

Lemma first_matching_rule_wins_witness :
  process_command "hello what time is it" (world_with_commands ∅) =
    (Ok tt, record_event (Spoke "Hello! How can I help you?") (world_with_commands ∅)) /\
  process_command "hello and bye" (world_with_commands {["hello and bye" := "see you"]}) =
    (Raise (SystemExit 0),
     record_event (Spoke "Goodbye. Exiting now.")
       (world_with_commands {["hello and bye" := "see you"]})).
Proof.
  split.
  - apply (first_matching_rule_wins "hello what time is it" (world_with_commands ∅));
      reflexivity.
  - apply (first_matching_rule_wins "hello and bye"
             (world_with_commands {["hello and bye" := "see you"]}));
      reflexivity.
Defined.

(** ** The keys of the mapping *)

Lemma keeps_rule_action r u :
  r <> RAddCommand -> keeps_store (rule_action r u).
Proof.
  intros Hr. destruct r; simpl; try done.
  - apply keeps_weather_intent.
  - apply keeps_email_intent.
  - apply keeps_reminder_intent.
  - apply keeps_wikipedia_intent.
Qed.

Lemma add_command_intent_keys w :
  keys_ok (custom_commands w) ->
  keys_ok (custom_commands (exec add_command_intent w)).
Proof.
  intros Hk. unfold exec. rewrite add_command_intent_run.
  destruct (Py.truthy (upcoming w 0)) eqn:Ht; cbn [negb]; [|done].
  destruct (Py.truthy (upcoming w 1)) eqn:Hresp; cbn [negb]; [|done].
  unfold mbind, M_bind. rewrite upsert_run. cbn zeta.
  assert (keys_ok (<[upcoming w 0 := upcoming w 1]> (custom_commands w))) as Hk'.
  { apply map_Forall_insert_2; [|done]. by apply listen_result_key_ok. }
  by destruct (file_writable (asked_response w)).
Qed.

(** C3, as stated, fails: the load keeps the keys of the commands file as
    they are, so a file with a capitalised, untrimmed or empty trigger gives
    a mapping with such a key. *)
Lemma loaded_keys_are_not_normalised :
  ~ keys_ok (load_custom_commands (Some (Document {["Good Morning " := "hello"]}))) /\
  ~ keys_ok (custom_commands (world_with_commands {["" := "at your service"]})).
Proof.
  split; intros H.
  - specialize (H "Good Morning " "hello" eq_refl). vm_compute in H. discriminate.
  - specialize (H "" "at your service" eq_refl). vm_compute in H. discriminate.
Qed.

(** C3, amended: the mapping loaded from an absent or unparsable file is
    empty, so all its keys are non-empty, trimmed and lowercase; the mapping
    loaded from a parsable file is the file's, keys unchanged; and every run
    of the dispatcher, the upsert of the add-command intent included, keeps
    the keys non-empty, trimmed and lowercase when they were so before. *)
Theorem store_keys_invariant :
  keys_ok (load_custom_commands None) /\
  keys_ok (load_custom_commands (Some Unparsable)) /\
  (forall m, load_custom_commands (Some (Document m)) = m) /\
  (forall u w, keys_ok (custom_commands w) ->
               keys_ok (custom_commands (exec (process_command u) w))).
Proof.
  split; [apply map_Forall_empty|]. split; [apply map_Forall_empty|].
  split; [done|]. intros u w Hk.
  destruct (decide (first_match (custom_commands w) u = RAddCommand)) as [Hr|Hr].
  - unfold exec. rewrite (add_command_rule_run _ _ Hr).
    by apply add_command_intent_keys.
  - unfold exec. rewrite process_command_dispatch.
    destruct (keeps_rule_action _ u Hr w) as [Hc _].
    unfold exec in Hc. by rewrite Hc.
Qed.

Lemma store_keys_invariant_witness :
  keys_ok (custom_commands
             (exec (process_command "please add command")
                (dialogue_world (Some (Document {["good night" := "sleep well"]}))
                   [says " Good Morning "; says "Have a nice day"]))).
Proof.
  apply store_keys_invariant.
  intros k r Hk. simpl in Hk.
  apply lookup_singleton_Some in Hk as [<- _]. reflexivity.
Defined.

(** * Further properties of the dispatcher *)

(** ** Relations that every step of a run respects *)

Definition respects (R : World -> World -> Prop) {A} (m : M A) : Prop :=
  forall w, R w (exec m w).

Section Respect.

Variable R : World -> World -> Prop.
Hypothesis R_refl : forall w, R w w.
Hypothesis R_trans : forall w1 w2 w3, R w1 w2 -> R w2 w3 -> R w1 w3.
Hypothesis R_event : forall e w, R w (record_event e w).
Hypothesis R_microphone : forall w, R w (advance_microphone w).
Hypothesis R_keyboard : forall w, R w (advance_keyboard w).
Hypothesis R_mapping : forall m w, R w (set_custom_commands m w).
Hypothesis R_file : forall c w, R w (write_file c w).
Hypothesis R_thread : forall r w, R w (start_thread r w).

Lemma respects_bind {A B} (m : M A) (k : A -> M B) :
  respects R m -> (forall a, respects R (k a)) -> respects R (m ≫= k).
Proof.
  intros Hm Hk w. unfold exec, mbind, M_bind.
  specialize (Hm w). unfold exec in Hm.
  destruct (m w) as [[a|e] w1]; simpl in *; [|done].
  eapply R_trans; [exact Hm|]. apply Hk.
Qed.

Lemma respects_try {A} (body handler : M A) :
  respects R body -> respects R handler -> respects R (try_except body handler).
Proof.
  intros Hb Hh w. unfold exec, try_except.
  specialize (Hb w). unfold exec in Hb.
  destruct (body w) as [[a|e] w1]; simpl in *; [done|].
  eapply R_trans; [exact Hb|]. apply Hh.
Qed.

Lemma respects_ret {A} (a : A) : respects R (mret a).
Proof. intros w. apply R_refl. Qed.

Lemma respects_raise {A} e : respects R (raise (A := A) e).
Proof. intros w. apply R_refl. Qed.

Lemma respects_speak text : respects R (speak text).
Proof. intros w. apply R_event. Qed.

Lemma respects_print text : respects R (print text).
Proof. intros w. apply R_event. Qed.

Lemma respects_input : respects R input.
Proof. intros w. apply R_keyboard. Qed.

Lemma respects_listen : respects R listen_vosk.
Proof.
  intros w. unfold exec. rewrite listen_vosk_run. simpl. unfold after_listen.
  eapply R_trans; [apply R_event|]. eapply R_trans; [apply R_microphone|].
  apply R_event.
Qed.

Lemma respects_int s : respects R (int s).
Proof. unfold int. destruct (Py.parse_int s); intros w; apply R_refl. Qed.

Lemma respects_get_weather city : respects R (get_weather city).
Proof. intros w. apply R_event. Qed.

Lemma respects_send_email t s m : respects R (send_email t s m).
Proof. intros w. apply R_event. Qed.

Lemma respects_answer_wikipedia q : respects R (answer_wikipedia q).
Proof. intros w. apply R_event. Qed.

Lemma respects_set_reminder text minutes : respects R (set_reminder text minutes).
Proof.
  intros w. unfold exec, set_reminder. simpl.
  eapply R_trans; [apply R_thread|]. apply R_event.
Qed.

Lemma respects_save : respects R save_custom_commands.
Proof.
  intros w. unfold exec, save_custom_commands.
  destruct (file_writable w); simpl; [apply R_file | apply R_event].
Qed.

Lemma respects_upsert t r : respects R (upsert t r).
Proof.
  unfold upsert. apply respects_bind; [|intros _; apply respects_save].
  intros w. apply R_mapping.
Qed.

Ltac respect :=
  repeat first
    [ apply respects_listen | apply respects_set_reminder | apply respects_upsert
    | apply respects_get_weather | apply respects_send_email
    | apply respects_answer_wikipedia | apply respects_int | apply respects_input
    | apply respects_speak | apply respects_print
    | apply respects_ret | apply respects_raise
    | apply respects_try
    | apply respects_bind; [|intros ?]
    | match goal with
      | |- respects _ (if ?b then _ else _) => destruct b
      | |- respects _ (match ?x with _ => _ end) => destruct x
      end ].

Lemma respects_weather_intent u : respects R (weather_intent u).
Proof. unfold weather_intent. respect. Qed.

Lemma respects_email_intent : respects R email_intent.
Proof. unfold email_intent. respect. Qed.

Lemma respects_wikipedia_intent u : respects R (wikipedia_intent u).
Proof. unfold wikipedia_intent. respect. Qed.

Lemma respects_reminder_intent : respects R reminder_intent.
Proof. unfold reminder_intent. respect. Qed.

Lemma respects_add_command_intent : respects R add_command_intent.
Proof. unfold add_command_intent. respect. Qed.

(** The rules that neither start a reminder nor touch the store. *)
Lemma respects_plain_rule r u :
  r <> RReminder -> r <> RAddCommand -> respects R (rule_action r u).
Proof.
  intros H1 H2. destruct r; try done; simpl;
    first [ apply respects_weather_intent | apply respects_email_intent
          | apply respects_wikipedia_intent
          | intros w; apply R_event
          | solve [respect] ].
Qed.

End Respect.

(** ** The only exception that leaves the dispatcher *)

Definition returns {A} (m : M A) : Prop :=
  forall w, exists a, outcome m w = Ok a.

Section Returns.

Context {A B : Type}.

Lemma returns_bind (m : M A) (k : A -> M B) :
  returns m -> (forall a, returns (k a)) -> returns (m ≫= k).
Proof.
  intros Hm Hk w. unfold outcome, mbind, M_bind.
  destruct (Hm w) as [a Ha]. unfold outcome in Ha.
  destruct (m w) as [[a'|e] w1]; simpl in *; [|done].
  apply Hk.
Qed.

Lemma returns_try (body handler : M A) :
  returns handler -> returns (try_except body handler).
Proof.
  intros Hh w. unfold outcome, try_except.
  destruct (body w) as [[a|e] w1]; simpl; [by eexists|]. apply Hh.
Qed.

Lemma returns_ret (a : A) : returns (mret a).
Proof. intros w. by exists a. Qed.

End Returns.

Lemma returns_speak text : returns (speak text).
Proof. intros w. by exists tt. Qed.

Lemma returns_listen : returns listen_vosk.
Proof. intros w. unfold outcome. rewrite listen_vosk_run. by eexists. Qed.

Lemma returns_input : returns input.
Proof. intros w. by eexists. Qed.

Lemma returns_get_weather city : returns (get_weather city).
Proof. intros w. by exists tt. Qed.

Lemma returns_send_email t s m : returns (send_email t s m).
Proof. intros w. by exists tt. Qed.

Lemma returns_answer_wikipedia q : returns (answer_wikipedia q).
Proof. intros w. by exists tt. Qed.

Lemma returns_upsert t r : returns (upsert t r).
Proof. intros w. unfold outcome. rewrite upsert_run. simpl. destruct (file_writable w); by exists tt. Qed.

Ltac ret_ok :=
  repeat first
    [ apply returns_listen | apply returns_upsert | apply returns_get_weather
    | apply returns_send_email | apply returns_answer_wikipedia
    | apply returns_input | apply returns_speak | apply returns_ret
    | apply returns_try
    | apply returns_bind; [|intros ?]
    | match goal with
      | |- returns (if ?b then _ else _) => destruct b
      end ].

Lemma returns_weather_intent u : returns (weather_intent u).
Proof.
  intros w. unfold outcome. rewrite weather_intent_run.
  destruct (Py.contains " in " u) eqn:Hin; [|by exists tt].
  destruct (split_once_first _ _ Hin) as (b & a & -> & _). by exists tt.
Qed.

Lemma returns_email_intent : returns email_intent.
Proof. unfold email_intent. ret_ok. Qed.

Lemma returns_reminder_intent : returns reminder_intent.
Proof. unfold reminder_intent. ret_ok. Qed.

Lemma returns_wikipedia_intent u : returns (wikipedia_intent u).
Proof. unfold wikipedia_intent. ret_ok. Qed.

Lemma returns_add_command_intent : returns add_command_intent.
Proof. unfold add_command_intent. ret_ok. Qed.

Lemma returns_rule_action r u : r <> RExit -> returns (rule_action r u).
Proof.
  intros Hr. destruct r; try done; simpl;
    first [ apply returns_weather_intent | apply returns_email_intent
          | apply returns_reminder_intent | apply returns_wikipedia_intent
          | apply returns_add_command_intent
          | intros w; by exists tt ].
Qed.

Lemma first_match_exit_iff cc u :
  first_match cc u = RExit <-> any_in exit_words u = true.
Proof.
  split.
  - unfold first_match. simpl.
    destruct (Py.truthy u); simpl; [|done].
    destruct (any_in exit_words u) eqn:He; [done|]. simpl.
    intros Hf. exfalso. revert Hf.
    repeat match goal with
           | |- context [if ?b then _ else _] => destruct b; simpl; [done|]
           end. done.
  - intros He. apply first_match_exit; [|done].
    unfold any_in, exit_words in He. simpl in He.
    destruct u; [|done]. discriminate He.
Qed.


(** ** What a command may change *)

Definition same_timers (w w' : World) : Prop := timers w' = timers w.

Lemma same_timers_plain_rule r u :
  r <> RReminder -> r <> RAddCommand -> respects same_timers (rule_action r u).
Proof.
  apply respects_plain_rule; unfold same_timers; try done.
  intros w1 w2 w3 H1 H2. by rewrite H2.
Qed.

Lemma same_timers_add_command : respects same_timers add_command_intent.
Proof.
  apply respects_add_command_intent; unfold same_timers; try done.
  intros w1 w2 w3 H1 H2. by rewrite H2.
Qed.

Lemma decimal_value_nonneg s : 0 <= decimal_value (digits_of s).
Proof.
  unfold decimal_value.
  assert (forall l acc, 0 <= acc -> Forall (fun d => 0 <= d) l ->
            0 <= fold_left (fun acc d => 10 * acc + d) l acc) as Hfold.
  { induction l as [|d l IH]; intros acc Hacc Hl; [done|].
    inversion Hl; subst. simpl. apply IH; [lia|done]. }
  apply Hfold; [lia|].
  unfold digits_of. apply Forall_fmap, Forall_forall.
  intros c [Hc _]%list_elem_of_filter. simpl.
  unfold Py.isdigit in Hc. unfold Py.digit_value.
  apply andb_prop in Hc as [Hc _]. apply N.leb_le in Hc. lia.
Qed.

(** X2: a command changes the mapping of custom commands or the commands
    file only when it is handled by the add-command rule. *)
Theorem store_changes_only_in_add_command (u : string) (w : World) :
  first_match (custom_commands w) u <> RAddCommand ->
  custom_commands (exec (process_command u) w) = custom_commands w /\
  commands_file (exec (process_command u) w) = commands_file w.
Proof.
  intros Hr. unfold exec. rewrite process_command_dispatch.
  apply (keeps_rule_action _ u Hr w).
Qed.

Lemma store_changes_only_in_add_command_witness :
  let w := dialogue_world (Some (Document {["good night" := "sleep well"]}))
             [says "tea"; says "10"] in
  custom_commands (exec (process_command "remind me") w) = custom_commands w /\
  commands_file (exec (process_command "remind me") w) = commands_file w.
Proof.
  apply (store_changes_only_in_add_command "remind me"
           (dialogue_world (Some (Document {["good night" := "sleep well"]}))
              [says "tea"; says "10"])).
  vm_compute. discriminate.
Defined.

(** X3: one command starts at most one reminder thread, and only under the
    reminder rule; the thread's sleeping time is never negative and the
    threads started before are all kept. *)
Theorem reminders_only_from_reminder_rule (u : string) (w : World) :
  let w' := exec (process_command u) w in
  (first_match (custom_commands w) u <> RReminder -> timers w' = timers w) /\
  (timers w' = timers w \/
   exists r, first_match (custom_commands w) u = RReminder /\
             timers w' = (timers w ++ [r])%list /\ 0 <= delay_seconds r).
Proof.
  intros w'. subst w'.
  destruct (decide (first_match (custom_commands w) u = RReminder)) as [Hr|Hr].
  - split; [done|]. unfold exec. rewrite (reminder_rule_run _ _ Hr).
    destruct (digits_of (upcoming w 1)) as [|d ds] eqn:Hd; [by left|].
    right. eexists. split; [done|]. split; [reflexivity|]. simpl.
    pose proof (decimal_value_nonneg (upcoming w 1)). lia.
  - assert (timers (exec (process_command u) w) = timers w) as Ht; [|by split; [|left]].
    unfold exec. rewrite process_command_dispatch.
    destruct (decide (first_match (custom_commands w) u = RAddCommand)) as [Ha|Ha].
    + rewrite Ha. apply same_timers_add_command.
    + by apply same_timers_plain_rule.
Qed.

Lemma reminders_only_from_reminder_rule_witness :
  let w := dialogue_world None [says "good morning"; says "have a nice day"] in
  timers (exec (process_command "add command") w) = timers w.
Proof.
  apply (reminders_only_from_reminder_rule "add command"
           (dialogue_world None [says "good morning"; says "have a nice day"])).
  vm_compute. discriminate.
Defined.

(** ** The email intent *)

Definition asked_email (w : World) : World :=
  after_listen (record_event (Spoke "What should I say in the email?")
    (after_listen (record_event (Spoke "What is the subject?")
      (advance_keyboard
        (record_event (Spoke "Who is the recipient? Please type recipient email address:") w))))).

Lemma upcoming_advance_keyboard w k : upcoming (advance_keyboard w) k = upcoming w k.
Proof. reflexivity. Qed.

Ltac listens' :=
  repeat first [rewrite upcoming_record_event | rewrite upcoming_after_listen
               | rewrite upcoming_advance_keyboard].

Lemma email_intent_run w :
  email_intent w =
  send_email (Py.strip (keyboard w (typed w))) (upcoming w 0) (upcoming w 1)
             (asked_email w).
Proof.
  unfold email_intent, asked_email. rewrite bind_speak.
  unfold mbind at 1. unfold M_bind, input. cbn [keyboard typed record_event].
  rewrite bind_speak, bind_listen, bind_speak, bind_listen. listens'.
  reflexivity.
Qed.

Lemma first_match_matches cc u : rule_matches cc u (first_match cc u) = true.
Proof.
  unfold first_match.
  destruct (find (rule_matches cc u) priority) as [r|] eqn:Hf; [|done].
  by destruct (find_some _ _ Hf).
Qed.

Section Occurrences.

Lemma contains_app_intro x y rest : Py.contains y (x ++ y ++ rest) = true.
Proof.
  induction x as [|a x IH].
  - change ("" ++ y ++ rest) with (y ++ rest).
    destruct (y ++ rest) eqn:E; unfold Py.contains; fold Py.contains;
      rewrite <- E, startswith_app; done.
  - change (String a x ++ y ++ rest) with (String a (x ++ y ++ rest)).
    rewrite contains_cons, IH. apply orb_true_r.
Qed.

Lemma app_assoc_string (x y z : string) : (x ++ y) ++ z = x ++ y ++ z.
Proof.
  induction x as [|a x IH]; [done|].
  change (String a (x ++ y) ++ z = String a (x ++ y ++ z)).
  change (String a ((x ++ y) ++ z) = String a (x ++ y ++ z)). by rewrite IH.
Qed.

(** A text that holds [x ++ y] holds [y]. *)
Lemma contains_suffix x y s :
  Py.contains (x ++ y) s = true -> Py.contains y s = true.
Proof.
  induction s as [|c s IH].
  - unfold Py.contains. rewrite !orb_false_r. intros H.
    apply startswith_drop in H. destruct x; [|done].
    change ("" ++ y) with y in H. destruct y; [done|done].
  - rewrite !contains_cons. intros [H|H]%orb_prop.
    + apply startswith_drop in H. rewrite app_assoc_string in H.
      rewrite <- contains_cons, H. apply contains_app_intro.
    + rewrite (IH H). apply orb_true_r.
Qed.

End Occurrences.

(** X4: an utterance handled by the email rule reads one line from the
    keyboard and listens twice; mail is then requested with the typed line,
    trimmed but not lowered, as recipient and the two heard texts as subject
    and body, whatever they are, empty included.  The rule fires on the
    plain substring "email": the test for "send email" adds nothing. *)
Theorem email_dialogue (u : string) (w : World) :
  rule_matches (custom_commands w) u REmail = Py.contains "email" u /\
  (first_match (custom_commands w) u = REmail ->
   let w' := exec (process_command u) w in
   outcome (process_command u) w = Ok tt /\
   last_event w' =
     Some (MailRequest (Py.strip (keyboard w (typed w))) (upcoming w 0) (upcoming w 1)) /\
   typed w' = S (typed w) /\
   heard w' = S (S (heard w))).
Proof.
  split.
  - simpl. destruct (Py.contains "send email" u) eqn:Hs; [|done].
    symmetry. simpl. apply (contains_suffix "send " "email" u Hs).
  - intros Hr w'. subst w'. unfold exec, outcome, last_event.
    rewrite process_command_dispatch, Hr. simpl. rewrite email_intent_run.
    repeat split. simpl. apply last_snoc.
Qed.

Lemma email_dialogue_witness :
  last_event
    (exec (process_command "send an email")
       (startup None true (answers [says "Lunch"; types ""]) (fun _ => " Ann@Example.org "))) =
  Some (MailRequest "Ann@Example.org" "lunch" "").
Proof.
  apply (email_dialogue "send an email"
           (startup None true (answers [says "Lunch"; types ""]) (fun _ => " Ann@Example.org "))).
  reflexivity.
Defined.

(** ** The encyclopedia intent *)

Definition asked_query (w : World) : World :=
  after_listen (record_event (Spoke "What would you like to know about?") w).

Lemma wikipedia_intent_run u w :
  wikipedia_intent u w =
  let q := strip_prefix wikipedia_prefixes u in
  if Py.truthy q then answer_wikipedia q w
  else if Py.truthy (upcoming w 0) then answer_wikipedia (upcoming w 0) (asked_query w)
  else (Ok tt, asked_query w).
Proof.
  unfold wikipedia_intent, asked_query. cbn zeta.
  destruct (Py.truthy (strip_prefix wikipedia_prefixes u)); [done|].
  rewrite bind_speak, bind_listen. listens.
  destruct (Py.truthy (upcoming w 0)); reflexivity.
Qed.

Lemma replace_once_prefix p new s :
  Py.startswith s p = true ->
  Py.replace_once p new s = new ++ Py.drop (String.length p) s.
Proof. intros H. destruct s; simpl; by rewrite H. Qed.

(** The prefix loop removes the first listed prefix that the text starts
    with, and trims what follows. *)
Lemma strip_prefix_first ps u :
  existsb (Py.startswith u) ps = true ->
  exists p rest, p ∈ ps /\ u = p ++ rest /\ strip_prefix ps u = Py.strip rest.
Proof.
  induction ps as [|p ps IH]; [done|]. simpl.
  destruct (Py.startswith u p) eqn:Hp.
  - intros _. exists p, (Py.drop (String.length p) u).
    split; [constructor|]. split; [by apply startswith_drop|].
    by rewrite replace_once_prefix.
  - simpl. intros H. destruct (IH H) as (q & rest & Hq & Hu & Hs).
    exists q, rest. split; [by constructor|]. done.
Qed.

(** X5: an utterance handled by the encyclopedia rule starts with one of the
    three prefixes; the prefix is removed once and the rest, trimmed, is the
    query, looked up without any listening.  When nothing follows the
    prefix, the dispatcher asks, listens once and looks up the answer; an
    empty answer ends the intent without any lookup. *)
Theorem wikipedia_query (u : string) (w : World) :
  first_match (custom_commands w) u = RWikipedia ->
  exists p rest,
    p ∈ wikipedia_prefixes /\ u = p ++ rest /\
    (Py.strip rest <> "" ->
       process_command u w = (Ok tt, record_event (WikipediaRequest (Py.strip rest)) w)) /\
    (Py.strip rest = "" -> upcoming w 0 <> "" ->
       process_command u w =
         (Ok tt, record_event (WikipediaRequest (upcoming w 0)) (asked_query w))) /\
    (Py.strip rest = "" -> upcoming w 0 = "" ->
       process_command u w = (Ok tt, asked_query w)).
Proof.
  intros Hr. pose proof (first_match_matches (custom_commands w) u) as Hm.
  rewrite Hr in Hm. simpl in Hm.
  destruct (strip_prefix_first wikipedia_prefixes u) as (p & rest & Hp & Hu & Hs).
  { exact Hm. }
  exists p, rest. split; [done|]. split; [done|].
  rewrite process_command_dispatch, Hr. simpl.
  rewrite wikipedia_intent_run, Hs. cbn zeta.
  split; [|split].
  - intros Hq%truthy_true. by rewrite Hq.
  - intros -> Ha%truthy_true. simpl. by rewrite Ha.
  - intros -> ->. reflexivity.
Qed.

Lemma wikipedia_query_witness :
  transcript (exec (process_command "what is photosynthesis")
                (startup None true (answers []) (fun _ => ""))) =
  [WikipediaRequest "photosynthesis"].
Proof.
  destruct (wikipedia_query "what is photosynthesis"
              (startup None true (answers []) (fun _ => "")) eq_refl)
    as (p & rest & Hp & Hu & H & _).
  assert (rest = " photosynthesis") as ->.
  { unfold wikipedia_prefixes in Hp.
    repeat (apply elem_of_cons in Hp as [->|Hp]; [vm_compute in Hu; congruence|]).
    by apply elem_of_nil in Hp. }
  unfold exec. rewrite H; [reflexivity | discriminate].
Defined.

(** ** How much of the dialogue a command uses *)

(** The number of calls of [listen_vosk] a command makes after it was
    heard. *)
Definition listens_of (u : string) (w : World) : nat :=
  match first_match (custom_commands w) u with
  | RWeather => if Py.contains " in " u then 0 else 1
  | REmail | RReminder => 2
  | RWikipedia => if Py.truthy (strip_prefix wikipedia_prefixes u) then 0 else 1
  | RAddCommand => if Py.truthy (upcoming w 0) then 2 else 1
  | _ => 0
  end.

(** X6: the dispatcher listens again only under five rules: once for a
    weather request without " in " and for an encyclopedia request with
    nothing after its prefix, twice for an email and for a reminder, and for
    a new command once when the trigger is empty and twice otherwise; it
    reads the keyboard itself only for the recipient of an email. *)
Theorem follow_up_listens (u : string) (w : World) :
  heard (exec (process_command u) w) = (heard w + listens_of u w)%nat /\
  typed (exec (process_command u) w) =
    (typed w + if decide (first_match (custom_commands w) u = REmail) then 1 else 0)%nat /\
  (listens_of u w <= 2)%nat.
Proof.
  unfold exec, listens_of. rewrite process_command_dispatch.
  destruct (first_match (custom_commands w) u) eqn:Hr; cbn [rule_action];
    try (repeat split; simpl; lia).
  - rewrite weather_intent_run.
    destruct (Py.contains " in " u) eqn:Hin.
    + destruct (split_once_first _ _ Hin) as (b & a & -> & _).
      repeat split; simpl; lia.
    + repeat split; simpl; lia.
  - rewrite email_intent_run. repeat split; simpl; lia.
  - rewrite reminder_intent_run.
    destruct (Py.parse_int (Py.keep_digits (upcoming w 1)));
      repeat split; simpl; lia.
  - rewrite wikipedia_intent_run. cbn zeta.
    destruct (Py.truthy (strip_prefix wikipedia_prefixes u)).
    + repeat split; simpl; lia.
    + destruct (Py.truthy (upcoming w 0)); repeat split; simpl; lia.
  - rewrite add_command_intent_run.
    destruct (Py.truthy (upcoming w 0)); cbn [negb].
    + destruct (Py.truthy (upcoming w 1)); cbn [negb].
      * unfold mbind, M_bind. rewrite upsert_run. cbn zeta.
        destruct (file_writable (asked_response w)); repeat split; simpl; lia.
      * repeat split; simpl; lia.
    + repeat split; simpl; lia.
Qed.

(** ** The command store under repeated use *)

Lemma add_command_stores u w :
  first_match (custom_commands w) u = RAddCommand ->
  upcoming w 0 <> "" -> upcoming w 1 <> "" ->
  let m := <[upcoming w 0 := upcoming w 1]> (custom_commands w) in
  process_command u w =
    (Ok tt,
     record_event (Spoke ("Custom command added for trigger: " ++ upcoming w 0))
       (if file_writable w
        then write_file (Document m) (set_custom_commands m (asked_response w))
        else record_event (Printed "Failed to save custom commands:")
               (set_custom_commands m (asked_response w)))).
Proof.
  intros Hr Ht%truthy_true Hresp%truthy_true m. subst m.
  rewrite (add_command_rule_run _ _ Hr), add_command_intent_run, Ht, Hresp.
  cbn [negb]. unfold mbind, M_bind. rewrite upsert_run. cbn zeta.
  change (file_writable (asked_response w)) with (file_writable w).
  change (custom_commands (asked_response w)) with (custom_commands w).
  by destruct (file_writable w).
Qed.

(** X7: assigning a trigger twice keeps the last response (with the same
    response the second assignment changes nothing), leaves every other
    trigger as it was, and, when the file can be written, leaves in the file
    the very mapping that is in memory. *)
Theorem upsert_overwrites (t r1 r2 k : string) (w : World) :
  let w1 := exec (upsert t r1) w in
  let w2 := exec (upsert t r2) w1 in
  custom_commands w2 = <[t := r2]> (custom_commands w) /\
  custom_commands w2 !! t = Some r2 /\
  (r1 = r2 -> custom_commands w2 = custom_commands w1) /\
  (k <> t -> custom_commands w2 !! k = custom_commands w !! k) /\
  (file_writable w = true -> commands_file w2 = Some (Document (custom_commands w2))).
Proof.
  intros w1 w2. subst w1 w2. unfold exec. rewrite !upsert_run. cbn zeta.
  destruct (file_writable w) eqn:Hw; simpl; rewrite Hw; simpl;
    rewrite insert_insert_eq;
    (split; [done|]); (split; [apply lookup_insert_eq|]);
    (split; [by intros ->|]); (split; [intros Hk; by apply lookup_insert_ne|]);
    done.
Qed.

Lemma upsert_overwrites_witness :
  let w := world_with_commands {["good night" := "sleep well"]} in
  custom_commands (exec (upsert "hi there" "b") (exec (upsert "hi there" "a") w))
    !! "good night" = Some "sleep well" /\
  commands_file (exec (upsert "hi there" "b") (exec (upsert "hi there" "a") w)) =
    Some (Document (custom_commands
            (exec (upsert "hi there" "b") (exec (upsert "hi there" "a") w)))).
Proof.
  destruct (upsert_overwrites "hi there" "a" "b" "good night"
              (world_with_commands {["good night" := "sleep well"]}))
    as (_ & _ & _ & Hk & Hf).
  split; [rewrite Hk; [reflexivity | discriminate] | apply Hf; reflexivity].
Defined.



(** X9: after a completed add-command dialogue whose save could write the
    file, the file holds the whole mapping that is in memory, so a process
    started afterwards begins with exactly the same custom commands,
    entries whose earlier save had failed included. *)
Theorem saved_file_mirrors_memory (u : string) (w : World) :
  first_match (custom_commands w) u = RAddCommand ->
  upcoming w 0 <> "" -> upcoming w 1 <> "" ->
  file_writable w = true ->
  let w' := exec (process_command u) w in
  commands_file w' = Some (Document (custom_commands w')) /\
  (forall writable mic keys,
     custom_commands (startup (commands_file w') writable mic keys) = custom_commands w') /\
  (forall k r, custom_commands w !! k = Some r -> k <> upcoming w 0 ->
     load_custom_commands (commands_file w') !! k = Some r).
Proof.
  intros Hr Ht Hresp Hw w'. subst w'. unfold exec.
  rewrite (add_command_stores _ _ Hr Ht Hresp). cbn zeta. rewrite Hw. simpl.
  split; [done|]. split; [done|].
  intros k r Hk Hne. by rewrite lookup_insert_ne.
Qed.

Lemma saved_file_mirrors_memory_witness :
  let w := exec (process_command "add command")
             (startup None false (answers [says "good morning"; says "have a nice day"])
                (fun _ => "")) in
  let w2 := {| custom_commands := custom_commands w; commands_file := commands_file w;
               file_writable := true;
               microphone := answers [says "good night"; says "sleep well"];
               heard := 0%nat; keyboard := keyboard w; typed := typed w;
               clock_time := clock_time w; clock_date := clock_date w;
               timers := timers w; transcript := transcript w |} in
  load_custom_commands (commands_file (exec (process_command "create command") w2))
    !! "good morning" = Some "have a nice day".
Proof.
  intros w w2.
  destruct (saved_file_mirrors_memory "create command" w2
              ltac:(reflexivity) ltac:(discriminate) ltac:(discriminate) ltac:(reflexivity))
    as (_ & _ & H).
  apply H; [reflexivity | discriminate].
Defined.

(** X10: once a pair was added through the dialogue, saying the trigger
    speaks the stored response and nothing else, provided the trigger holds
    no exit word; a trigger that holds one can never be used, since saying
    it ends the process. *)
Theorem added_command_is_dispatched (u : string) (w : World) :
  first_match (custom_commands w) u = RAddCommand ->
  upcoming w 0 <> "" -> upcoming w 1 <> "" ->
  let w' := exec (process_command u) w in
  (any_in exit_words (upcoming w 0) = false ->
     process_command (upcoming w 0) w' = (Ok tt, record_event (Spoke (upcoming w 1)) w')) /\
  (any_in exit_words (upcoming w 0) = true ->
     process_command (upcoming w 0) w' =
       (Raise (SystemExit 0), record_event (Spoke "Goodbye. Exiting now.") w')).
Proof.
  intros Hr Ht Hresp w'.
  assert (custom_commands w' !! upcoming w 0 = Some (upcoming w 1)) as Hc.
  { subst w'. unfold exec. rewrite (add_command_stores _ _ Hr Ht Hresp). cbn zeta.
    destruct (file_writable w); simpl; apply lookup_insert_eq. }
  clearbody w'. apply truthy_true in Ht. split; intros He.
  - rewrite process_command_dispatch.
    assert (first_match (custom_commands w') (upcoming w 0) = RCustom) as ->.
    { unfold first_match. simpl. by rewrite Ht, He, Hc. }
    simpl. by rewrite Hc.
  - rewrite process_command_dispatch, (first_match_exit _ _ Ht He). reflexivity.
Qed.

Lemma added_command_is_dispatched_witness :
  (let w := dialogue_world None [says "good morning"; says "have a nice day"] in
   transcript (exec (process_command "good morning")
                 (exec (process_command "add command") w)) =
   (transcript (exec (process_command "add command") w) ++ [Spoke "have a nice day"])%list) /\
  (let w := dialogue_world None [says "stop the music"; says "music off"] in
   outcome (process_command "stop the music") (exec (process_command "add command") w) =
   Raise (SystemExit 0)).
Proof.
  split.
  - destruct (added_command_is_dispatched "add command"
                (dialogue_world None [says "good morning"; says "have a nice day"])
                ltac:(reflexivity) ltac:(discriminate) ltac:(discriminate))
      as (H & _).
    cbv zeta. unfold exec at 1.
    change "good morning" with
      (upcoming (dialogue_world None [says "good morning"; says "have a nice day"]) 0) at 1.
    rewrite H; reflexivity.
  - destruct (added_command_is_dispatched "add command"
                (dialogue_world None [says "stop the music"; says "music off"])
                ltac:(reflexivity) ltac:(discriminate) ltac:(discriminate))
      as (_ & H).
    cbv zeta. unfold outcome.
    change "stop the music" with
      (upcoming (dialogue_world None [says "stop the music"; says "music off"]) 0) at 1.
    rewrite H; reflexivity.
Defined.

(** ** Reminders set through the dialogue *)



(** ** What a listen returns *)

Lemma normalise_idem s : normalise (normalise s) = normalise s.
Proof.
  unfold normalise. rewrite <- (lower_strip (Py.strip s)), strip_idem.
  apply lower_idem.
Qed.





(** ** The main loop, lines 260-271 *)

(** [try: body / except Exception: handler]: [SystemExit] is not an
    [Exception] and goes through. *)
Definition try_except_Exception {A} (body handler : M A) : M A := fun w =>
  match body w with
  | (Ok a, w') => (Ok a, w')
  | (Raise (SystemExit code), w') => (Raise (SystemExit code), w')
  | (Raise _, w') => handler w'
  end.

(** One turn of the [while True] loop. *)
Definition main_iteration : M unit :=
  heard_text ← listen_vosk;
  cmd ← (if negb (Py.truthy heard_text)
         then typed_line ← input; mret (Py.lower (Py.strip typed_line))
         else mret heard_text);
  try_except_Exception (process_command cmd)
    (print "Processing error:" ;;
     speak "An error occurred while processing your command.").

(** The loop, with the number of turns it is given; [Ok] after that many
    turns means that the loop is still running. *)
Fixpoint main_loop (fuel : nat) : M unit :=
  match fuel with
  | O => mret tt
  | S fuel' => main_iteration ;; main_loop fuel'
  end.

Definition main (fuel : nat) : M unit :=
  speak "Advanced Voice Assistant with Vosk activated." ;;
  print "Speak a command or type one. Say 'exit' to stop." ;;
  main_loop fuel.

(** The command a turn dispatches: the text heard, or the line typed at
    the prompt of the loop when nothing was heard. *)
Definition turn_command (w : World) : string :=
  if Py.truthy (upcoming w 0) then upcoming w 0
  else normalise (keyboard w (typed w)).

Definition after_turn (w : World) : World := exec main_iteration w.

Definition greeted (w : World) : World :=
  record_event (Printed "Speak a command or type one. Say 'exit' to stop.")
    (record_event (Spoke "Advanced Voice Assistant with Vosk activated.") w).

Lemma process_command_outcome u w :
  fst (process_command u w) =
    if any_in exit_words u then Raise (SystemExit 0) else Ok tt.
Proof.
  rewrite process_command_dispatch.
  destruct (any_in exit_words u) eqn:He.
  - apply (first_match_exit_iff (custom_commands w)) in He. by rewrite He.
  - assert (first_match (custom_commands w) u <> RExit) as Hr.
    { rewrite first_match_exit_iff. congruence. }
    destruct (returns_rule_action _ u Hr w) as [[] Ha]. exact Ha.
Qed.

Lemma main_iteration_run w :
  main_iteration w =
  let w1 := if Py.truthy (upcoming w 0) then after_listen w
            else advance_keyboard (after_listen w) in
  (if any_in exit_words (turn_command w) then Raise (SystemExit 0) else Ok tt,
   snd (process_command (turn_command w) w1)).
Proof.
  unfold main_iteration, turn_command, normalise. rewrite bind_listen. cbn zeta.
  destruct (Py.truthy (upcoming w 0)) eqn:Ht; cbn [negb];
    unfold mbind, M_bind, try_except_Exception; simpl;
    match goal with
    | |- context [process_command ?u ?w1] =>
        pose proof (process_command_outcome u w1) as Ho;
        destruct (process_command u w1) as [res w2]; simpl in *; subst res;
        by destruct (any_in exit_words u)
    end.
Qed.

Lemma main_loop_succ fuel w :
  main_loop (S fuel) w =
  if any_in exit_words (turn_command w) then (Raise (SystemExit 0), after_turn w)
  else main_loop fuel (after_turn w).
Proof.
  unfold after_turn, exec. simpl. unfold mbind, M_bind.
  rewrite main_iteration_run. cbn zeta.
  by destruct (any_in exit_words (turn_command w)).
Qed.

Lemma after_turn_exit w :
  any_in exit_words (turn_command w) = true ->
  last_event (after_turn w) = Some (Spoke "Goodbye. Exiting now.").
Proof.
  intros He. unfold after_turn, exec, last_event.
  rewrite main_iteration_run. cbn zeta. simpl.
  assert (Py.truthy (turn_command w) = true) as Ht.
  { unfold any_in, exit_words in He. simpl in He.
    destruct (turn_command w); [discriminate He | done]. }
  rewrite process_command_dispatch, (first_match_exit _ _ Ht He).
  simpl. apply last_snoc.
Qed.

(** X13: the loop of [main] dispatches one command per turn, the heard text
    or else the typed line, and goes on as long as the command holds no exit
    word; at the first turn whose command holds one it says goodbye and the
    process exits with status 0.  Given more turns than that, the loop ends
    so; given fewer, it is still running, nothing else ever ends it. *)
Theorem main_runs_until_exit (w : World) (n : nat) :
  let turn k := Nat.iter k after_turn (greeted w) in
  (forall k, (k < n)%nat -> any_in exit_words (turn_command (turn k)) = false) ->
  any_in exit_words (turn_command (turn n)) = true ->
  (forall fuel, (n < fuel)%nat ->
     outcome (main fuel) w = Raise (SystemExit 0) /\
     exec (main fuel) w = turn (S n) /\
     last_event (exec (main fuel) w) = Some (Spoke "Goodbye. Exiting now.")) /\
  (forall fuel, (fuel <= n)%nat ->
     outcome (main fuel) w = Ok tt /\ exec (main fuel) w = turn fuel).
Proof.
  intros turn. subst turn.
  assert (forall fuel, main fuel w = main_loop fuel (greeted w)) as Hmain by done.
  unfold outcome, exec. setoid_rewrite Hmain. clear Hmain.
  generalize (greeted w). clear w. intros w. revert w.
  induction n as [|n IH]; intros w Hbefore Hexit.
  - simpl in Hexit. split.
    + intros [|fuel] Hf; [lia|]. rewrite main_loop_succ, Hexit. simpl.
      repeat split. by apply after_turn_exit.
    + intros fuel Hf. assert (fuel = 0%nat) as -> by lia. done.
  - assert (any_in exit_words (turn_command w) = false) as H0.
    { apply (Hbefore 0%nat). lia. }
    destruct (IH (after_turn w)) as [IH1 IH2].
    { intros k Hk. rewrite <- Nat.iter_succ_r. apply Hbefore. lia. }
    { by rewrite <- Nat.iter_succ_r. }
    split.
    + intros [|fuel] Hf; [lia|]. rewrite main_loop_succ, H0.
      rewrite (Nat.iter_succ_r (S n)). apply IH1. lia.
    + intros [|fuel] Hf; [done|]. rewrite main_loop_succ, H0.
      rewrite Nat.iter_succ_r. apply IH2. lia.
Qed.

Lemma main_runs_until_exit_witness :
  let w := startup None true
             (answers [says "hello"; types ""; says "what is the time"; says "Goodbye"])
             (fun n => match n with O => "date" | _ => "" end) in
  outcome (main 10) w = Raise (SystemExit 0) /\
  outcome (main 3) w = Ok tt.
Proof.
  intros w.
  assert (forall k, (k < 3)%nat ->
            any_in exit_words (turn_command (Nat.iter k after_turn (greeted w))) = false) as Hb.
  { intros k Hk. destruct k as [|[|[|k]]]; [reflexivity..|lia]. }
  destruct (main_runs_until_exit w 3 Hb eq_refl) as [H1 H2].
  split; [apply H1; lia | apply H2; lia].
Defined.

Lemma turn_command_normalised w : normalise (turn_command w) = turn_command w.
Proof.
  unfold turn_command, upcoming, listen_result.
  destruct (Py.truthy _) eqn:Ht; [|apply normalise_idem].
  destruct (first_heard _) as [text|] eqn:E; [|apply normalise_idem].
  apply first_heard_normalised in E as (s & -> & _). apply normalise_idem.
Qed.

Lemma first_match_custom_lookup cc u :
  first_match cc u = RCustom -> Py.truthy u = true /\ is_Some (cc !! u).
Proof.
  intros Hr. pose proof (first_match_matches cc u) as Hm. rewrite Hr in Hm.
  simpl in Hm. apply bool_decide_eq_true_1 in Hm. split; [|done].
  destruct (Py.truthy u) eqn:Hu; [done|].
  unfold first_match in Hr. simpl in Hr. rewrite Hu in Hr. discriminate Hr.
Qed.

(** X14: the command of a turn is always trimmed and lowercase, and the
    mapping is looked up by exact match; so when a turn of the main loop
    speaks a stored response, the trigger it matched is non-empty, trimmed
    and lowercase: an entry of the commands file whose trigger is not so is
    never spoken. *)
Theorem main_loop_reaches_only_normalised_triggers (w w1 : World) (k : string) :
  first_match (custom_commands w1) (turn_command w) = RCustom ->
  key_ok (turn_command w) = true /\
  (key_ok k = false -> turn_command w <> k).
Proof.
  intros Hr. apply first_match_custom_lookup in Hr as [Ht _].
  assert (key_ok (turn_command w) = true) as Hk.
  { rewrite <- turn_command_normalised. apply normalise_key_ok.
    by rewrite turn_command_normalised. }
  split; [done|]. intros Hbad Heq. rewrite Heq in Hk. congruence.
Qed.

Lemma main_loop_reaches_only_normalised_triggers_witness :
  let w := startup (Some (Document {["Good Morning" := "hello"; "good night" := "sleep well"]}))
             true (answers [says "Good Night"]) (fun _ => "") in
  key_ok (turn_command w) = true /\ turn_command w <> "Good Morning".
Proof.
  intros w.
  destruct (main_loop_reaches_only_normalised_triggers w (after_listen w) "Good Morning"
              ltac:(reflexivity)) as [H1 H2].
  split; [exact H1 | apply H2; reflexivity].
Defined.

(** X15: a turn in which nothing is heard and both typed lines are blank
    dispatches the empty command, which does nothing: the turn returns
    normally and leaves only the traces of the listen and of the read
    keyboard line; mapping, file and reminders are untouched. *)
Theorem silent_turn (w : World) :
  turn_command w = "" ->
  main_iteration w = (Ok tt, advance_keyboard (after_listen w)) /\
  custom_commands (after_turn w) = custom_commands w /\
  commands_file (after_turn w) = commands_file w /\
  timers (after_turn w) = timers w /\
  last_event (after_turn w) =
    Some (Spoke "I couldn't hear clearly. Please type your command:").
Proof.
  intros Ht.
  assert (Py.truthy (upcoming w 0) = false) as Hu.
  { unfold turn_command in Ht. destruct (Py.truthy (upcoming w 0)) eqn:E; [|done].
    rewrite Ht in E. discriminate E. }
  assert (main_iteration w = (Ok tt, advance_keyboard (after_listen w))) as Hrun.
  { rewrite main_iteration_run. cbn zeta. rewrite Ht, Hu. reflexivity. }
  split; [done|]. unfold after_turn, exec, last_event. rewrite Hrun. simpl.
  repeat split.
  unfold upcoming, listen_result in Hu. rewrite Nat.add_0_r in Hu.
  destruct (first_heard (recognised (microphone w (heard w)))) as [text|] eqn:E.
  - apply first_heard_normalised in E as (s & _ & Hs). congruence.
  - apply last_snoc.
Qed.

Lemma silent_turn_witness :
  let w := startup (Some (Document {["" := "at your service"]})) true
             (answers [{| recognised := ["  "; ""]; typed_fallback := " " |}])
             (fun _ => "   ") in
  outcome main_iteration w = Ok tt /\
  typed (after_turn w) = 1%nat /\ heard (after_turn w) = 1%nat.
Proof.
  intros w. destruct (silent_turn w eq_refl) as (Hrun & _).
  unfold outcome, after_turn, exec. rewrite Hrun. repeat split.
Defined.

Example contains_hi : Py.contains "hi" "weather in delhi" = true.
Proof. reflexivity. Qed.
Example strip_ex : Py.strip "  Paris " = "Paris".
Proof. reflexivity. Qed.
Example split_ex : Py.split_once " in " "weather in a in b" = ["weather"; "a in b"].
Proof. reflexivity. Qed.
Example split_none : Py.split_once " in " "weather" = ["weather"].
Proof. reflexivity. Qed.
Example replace_ex : Py.replace_once "what is" "" "what is x what is" = " x what is".
Proof. reflexivity. Qed.
Example int_ex : Py.parse_int " -1_0 " = Some (-10).
Proof. reflexivity. Qed.
Example int_bad : Py.parse_int "" = None /\ Py.parse_int "1__0" = None /\ Py.parse_int "_1" = None.
Proof. repeat split; reflexivity. Qed.
Example pretty_ex : pretty (-5) = "-5" /\ pretty 20 = "20".
Proof. split; reflexivity. Qed.

Example run_hello :
  transcript (exec (process_command "hello") (startup None true (answers []) (fun _ => ""))) =
  [Spoke "Hello! How can I help you?"].
Proof. reflexivity. Qed.
Example run_add :
  let w := exec (process_command "add command")
             (startup None true (answers [says "Good Morning "; types " Hi there"]) (fun _ => "")) in
  custom_commands w !! "good morning" = Some "hi there" /\
  commands_file w = Some (Document {["good morning" := "hi there"]}).
Proof. vm_compute. split; reflexivity. Qed.
Example run_remind :
  let w := exec (process_command "remind me")
             (startup None true (answers [says "tea"; says "in 1 hour 30"]) (fun _ => "")) in
  timers w = [{| delay_seconds := 7800; announcement := "Reminder: tea" |}].
Proof. vm_compute. reflexivity. Qed.
